(** * SeaweedFS storage core: needle index, topology lookup, filer key hashing

    A shallow embedding of
      - weed/storage/needle_map_leveldb.go   (the LevelDB-backed needle index),
      - weed/topology/topology.go            (leadership, lookup, registration),
      - the leveldb2 filer store             (hashed partitioning of entries),
    followed by the properties the specification states about them.

    Go values are modelled as follows: unsigned integers are [Z] with the
    wrap-around written out, byte slices are [list Z] (each element in
    0..255), strings are [string], Go maps are [gmap], an [error] result is
    [option error] ([None] is Go's nil), and a run-time panic is an explicit
    outcome. *)

From Stdlib Require Import ZArith Lia.
From Stdlib Require DecimalString DecimalZ DecimalPos.
From stdpp Require Import gmap strings list sorting.

Open Scope Z_scope.

(** ** Go basics *)

Definition error := string.

(** [uintN] arithmetic wraps. *)
Definition wrap (w : Z) (x : Z) : Z := x mod 2 ^ w.

Definition is_uint (w : Z) (x : Z) : Prop := 0 <= x < 2 ^ w.

(** Big-endian encoding of the low [n] bytes of [x], as
    [util.Uint64toBytes] / [util.Uint32toBytes] write them. *)
Fixpoint be_bytes (n : nat) (x : Z) : list Z :=
  match n with
  | O => []
  | S n' => Z.land (Z.shiftr x (8 * Z.of_nat n')) 255 :: be_bytes n' x
  end.

(** [util.BytesToUint32] and friends: most significant byte first. *)
Definition be_value (b : list Z) : Z :=
  fold_left (fun acc x => acc * 256 + x) b 0.

(** ** The external key-value engine (goleveldb)

    An open store is a finite map from byte strings to byte strings.
    [Get] reports a missing key as an error; [Put] and [Delete] on an open
    store are modelled as succeeding. *)
Module leveldb.

Definition ErrNotFound : error := "leveldb: not found".

Definition Get (db : gmap (list Z) (list Z)) (key : list Z) : list Z * option error :=
  match db !! key with
  | Some v => (v, None)
  | None => ([], Some ErrNotFound)
  end.

Definition Put (db : gmap (list Z) (list Z)) (key value : list Z)
  : gmap (list Z) (list Z) * option error :=
  (<[key := value]> db, None).

Definition Delete (db : gmap (list Z) (list Z)) (key : list Z)
  : gmap (list Z) (list Z) * option error :=
  (delete key db, None).

(** What is found at a store's directory. *)
Inductive Dir :=
| Missing
| Corrupt (why : error)
| Present (kv : gmap (list Z) (list Z)).

(** [leveldb.OpenFile]: creates an empty store when none exists. *)
Definition OpenFile (d : Dir) : gmap (list Z) (list Z) + error :=
  match d with
  | Missing => inl ∅
  | Corrupt why => inr why
  | Present kv => inl kv
  end.

(** The default comparer ([bytes.Compare]): byte strings in lexicographic
    order. *)
Fixpoint bytes_leb (a b : list Z) : bool :=
  match a, b with
  | [], _ => true
  | _ :: _, [] => false
  | x :: a', y :: b' =>
      if x <? y then true else if y <? x then false else bytes_leb a' b'
  end.

Definition key_le (kv1 kv2 : list Z * list Z) : Prop := bytes_leb kv1.1 kv2.1 = true.

#[global] Instance key_le_dec : RelDecision key_le.
Proof. intros kv1 kv2. unfold key_le. apply _. Defined.

(** [db.NewIterator(&util.Range{Start: start}, nil)], run to its end: the
    pairs whose key is not below [start], in key order. *)
Definition NewIterator (db : gmap (list Z) (list Z)) (start : list Z)
  : list (list Z * list Z) :=
  List.filter (fun kv => bytes_leb start kv.1) (merge_sort key_le (map_to_list db)).

End leveldb.

(** ** weed/storage/types *)
Module types.

(** Modelled from the spec: the [types] package (NeedleId, Offset, sizes and
    their byte encodings) is not among the sources.  §3: NeedleId is a
    fixed-width integer key, Offset a fixed-width offset in compact form,
    Size a length with one reserved tombstone sentinel; §6: the store key is
    the fixed-width NeedleId encoding and the value the concatenation of the
    encoded Offset and Size. *)
Definition NeedleIdSize : nat := 8.
Definition OffsetSize : nat := 4.
Definition SizeSize : nat := 4.
Definition TombstoneFileSize : Z := 4294967295.

Definition NeedleIdToBytes (key : Z) : list Z := be_bytes NeedleIdSize key.
Definition OffsetToBytes (offset : Z) : list Z := be_bytes OffsetSize offset.
Definition BytesToOffset (b : list Z) : Z := be_value b.
Definition Uint32toBytes (v : Z) : list Z := be_bytes SizeSize v.
Definition BytesToUint32 (b : list Z) : Z := be_value b.
Definition IsZero (offset : Z) : bool := bool_decide (wrap 32 offset = 0).

End types.

(** ** weed/storage: the LevelDB needle map *)
Module storage.

Import types.

(** One fixed-width record of the index log. *)
Record IdxEntry := mkIdxEntry { eKey : Z; eOffset : Z; eSize : Z }.

(** The index log as the needle map holds it: the file's name, the records
    written so far, and the condition of the device under it ([Some e] when
    a write is refused with [e]: disk full, I/O error). *)
Record IndexFile := mkIndexFile {
  Name : string;
  entries : list IdxEntry;
  writeFault : option error
}.

(** Modelled from the spec: [mapMetric] and its [logPut] / [logDelete]
    (needle_map_metric.go) are not among the sources.  §4.1: every
    Put/Delete updates aggregate metrics (file count, deleted-file count,
    deleted-byte total) from the old and the new size; §8: an overwrite
    moves the size accounting by [s2 - s1].  The counters are Go [uint64]. *)
Record mapMetric := mkMetric {
  FileCounter : Z;
  FileByteCounter : Z;
  DeletionCounter : Z;
  DeletionByteCounter : Z
}.

Definition logPut (mm : mapMetric) (key oldSize newSize : Z) : mapMetric :=
  let mm1 := mkMetric (wrap 64 (FileCounter mm + 1))
                      (wrap 64 (FileByteCounter mm + newSize))
                      (DeletionCounter mm) (DeletionByteCounter mm) in
  if 0 <? oldSize then
    mkMetric (FileCounter mm1) (FileByteCounter mm1)
             (wrap 64 (DeletionCounter mm1 + 1))
             (wrap 64 (DeletionByteCounter mm1 + oldSize))
  else mm1.

Definition logDelete (mm : mapMetric) (deletedByteCount : Z) : mapMetric :=
  mkMetric (FileCounter mm) (FileByteCounter mm)
           (wrap 64 (DeletionCounter mm + 1))
           (wrap 64 (DeletionByteCounter mm + deletedByteCount)).


(** Modelled from the spec: [baseNeedleMapper.appendToIndexFile] is not among
    the sources.  §4.1 step 2 and §7 (durability failure): the record
    [(key, offset, size)] is appended at the end of the log; when the write
    fails the error is returned and the log is unchanged. *)
Definition appendToIndexFile (f : IndexFile) (key offset size : Z)
  : IndexFile * option error :=
  match writeFault f with
  | Some e => (f, Some e)
  | None =>
      (mkIndexFile (Name f) (entries f ++ [mkIdxEntry key offset size]) None, None)
  end.

(** Modelled from the spec: [idx.WalkIndexFile] is not among the sources.
    §4.1: the log is replayed from the beginning in order; the walk stops at
    the first record for which the visitor fails. *)
Fixpoint WalkIndexFile {S : Type} (es : list IdxEntry)
    (fn : S -> Z -> Z -> Z -> S * option error) (s : S) : S * option error :=
  match es with
  | [] => (s, None)
  | e :: rest =>
      match fn s (eKey e) (eOffset e) (eSize e) with
      | (s', Some err) => (s', Some err)
      | (s', None) => WalkIndexFile rest fn s'
      end
  end.

Record NeedleValue := mkNeedleValue { Key : Z; Offset : Z; Size : Z }.

Record LevelDbNeedleMap := mkLevelDbNeedleMap {
  indexFile : IndexFile;
  mapMetric_ : mapMetric;
  dbFileName : string;
  db : gmap (list Z) (list Z)
}.

(** [levelDbWrite]: key bytes are the first [NeedleIdSize] bytes of the
    buffer, the value is the rest (offset, then size). *)
Definition levelDbWrite (db : gmap (list Z) (list Z)) (key offset size : Z)
  : gmap (list Z) (list Z) * option error :=
  let bytes := NeedleIdToBytes key ++ OffsetToBytes offset ++ Uint32toBytes size in
  match leveldb.Put db (take NeedleIdSize bytes) (drop NeedleIdSize bytes) with
  | (db', Some err) => (db', Some ("failed to write leveldb: " +:+ err))
  | (db', None) => (db', None)
  end.

Definition levelDbDelete (db : gmap (list Z) (list Z)) (key : Z)
  : gmap (list Z) (list Z) * option error :=
  leveldb.Delete db (NeedleIdToBytes key).

(** The visitor [generateLevelDbFile] hands to the walk; the results of
    [levelDbWrite] and [levelDbDelete] are dropped and nil is returned. *)
Definition replayRecord (db : gmap (list Z) (list Z)) (key offset size : Z)
  : gmap (list Z) (list Z) * option error :=
  if negb (IsZero offset) && negb (bool_decide (size = TombstoneFileSize))
  then (fst (levelDbWrite db key offset size), None)
  else (fst (levelDbDelete db key), None).

(** [generateLevelDbFile]: open (or create) the store at [dbFileName] and
    replay the log into it.  Returns what is at the directory afterwards. *)
Definition generateLevelDbFile (dir : leveldb.Dir) (indexFile : IndexFile)
  : leveldb.Dir * option error :=
  match leveldb.OpenFile dir with
  | inr err => (dir, Some err)
  | inl db =>
      let '(db', err) := WalkIndexFile (entries indexFile) replayRecord db in
      (leveldb.Present db', err)
  end.

(** The replay rule in the specification's words (§4.1): for each log
    record in order, a tombstone or a zero offset deletes the key from the
    store, anything else upserts it.  Compared with [generateLevelDbFile]
    in the properties below. *)
Fixpoint replaySpec (es : list IdxEntry) (store : gmap (list Z) (list Z))
  : gmap (list Z) (list Z) :=
  match es with
  | [] => store
  | e :: rest =>
      replaySpec rest
        (if bool_decide (eSize e = TombstoneFileSize) || IsZero (eOffset e)
         then delete (NeedleIdToBytes (eKey e)) store
         else <[NeedleIdToBytes (eKey e) :=
                  OffsetToBytes (eOffset e) ++ Uint32toBytes (eSize e)]> store)
  end.

(** What [os.Open] followed by [Stat] gives for a file: [None] when the file
    cannot be opened, [Some None] when it opens and [Stat] fails, else the
    modification time. *)
Definition isLevelDbFresh (dbLogFile : option (option Z)) (indexStat : option Z) : bool :=
  match dbLogFile with
  | None => false
  | Some dbStat =>
      match dbStat, indexStat with
      | Some dbModTime, Some indexModTime => bool_decide (indexModTime < dbModTime)
      | _, _ => false
      end
  end.

(** The files [NewLevelDbNeedleMap] looks at. *)
Record Disk := mkDisk {
  dbDir : leveldb.Dir;
  dbLOG : option (option Z);
  indexStat : option Z
}.

(** [NewLevelDbNeedleMap].  [newNeedleMapMetricFromIndexFile] is not among
    the sources and is taken as a parameter.  The result is the map (Go
    returns a non-nil [m] together with the error when the store cannot be
    opened: no map is modelled in that case). *)
Definition NewLevelDbNeedleMap
    (newNeedleMapMetricFromIndexFile : IndexFile -> mapMetric + error)
    (disk : Disk) (dbFileName : string) (indexFile : IndexFile)
  : leveldb.Dir * (LevelDbNeedleMap + error) :=
  let dir :=
    if negb (isLevelDbFresh (dbLOG disk) (indexStat disk))
    then fst (generateLevelDbFile (dbDir disk) indexFile)
    else dbDir disk in
  match leveldb.OpenFile dir with
  | inr err => (dir, inr err)
  | inl db =>
      match newNeedleMapMetricFromIndexFile indexFile with
      | inr indexLoadError => (leveldb.Present db, inr indexLoadError)
      | inl mm => (leveldb.Present db, inl (mkLevelDbNeedleMap indexFile mm dbFileName db))
      end
  end.

(** The same needle map over another store handle. *)
Definition withDb (m : LevelDbNeedleMap) (db' : gmap (list Z) (list Z)) : LevelDbNeedleMap :=
  mkLevelDbNeedleMap (indexFile m) (mapMetric_ m) (dbFileName m) db'.

Definition Get (m : LevelDbNeedleMap) (key : Z) : option NeedleValue :=
  let bytes := NeedleIdToBytes key in
  let '(data, err) := leveldb.Get (db m) bytes in
  if bool_decide (err <> None) || negb (length data =? OffsetSize + SizeSize)%nat
  then None
  else
    let offset := BytesToOffset (take OffsetSize data) in
    let size := BytesToUint32 (take SizeSize (drop OffsetSize data)) in
    Some (mkNeedleValue key offset size).

(** *** Effects of the mutating methods

    [Put] and [Delete] touch three things in sequence: the metrics, the
    index log and the store.  They are written in a state monad over the
    needle map that also records each effect as it happens. *)
Inductive Event :=
| EvMetric
| EvIndexAppend (e : IdxEntry) (ok : bool)
| EvDbPut (key : list Z)
| EvDbDelete (key : list Z).

Definition Eff (A : Type) : Type :=
  LevelDbNeedleMap -> list Event * LevelDbNeedleMap * A.

Definition ret {A} (a : A) : Eff A := fun m => ([], m, a).

Definition bind {A B} (x : Eff A) (f : A -> Eff B) : Eff B :=
  fun m =>
    let '(t1, m1, a) := x m in
    let '(t2, m2, b) := f a m1 in
    (t1 ++ t2, m2, b).

Notation "x <- c1 ;; c2" := (bind c1 (fun x => c2))
  (at level 100, c1 at next level, right associativity).
Notation "c1 ;;; c2" := (bind c1 (fun _ => c2))
  (at level 100, right associativity).

Definition mGet (key : Z) : Eff (option NeedleValue) :=
  fun m => ([], m, Get m key).

Definition m_logPut (key oldSize newSize : Z) : Eff unit :=
  fun m =>
    ([EvMetric],
     mkLevelDbNeedleMap (indexFile m) (logPut (mapMetric_ m) key oldSize newSize)
                        (dbFileName m) (db m),
     tt).

Definition m_logDelete (deletedByteCount : Z) : Eff unit :=
  fun m =>
    ([EvMetric],
     mkLevelDbNeedleMap (indexFile m) (logDelete (mapMetric_ m) deletedByteCount)
                        (dbFileName m) (db m),
     tt).

Definition m_appendToIndexFile (key offset size : Z) : Eff (option error) :=
  fun m =>
    let '(f, err) := appendToIndexFile (indexFile m) key offset size in
    ([EvIndexAppend (mkIdxEntry key offset size) (bool_decide (err = None))],
     mkLevelDbNeedleMap f (mapMetric_ m) (dbFileName m) (db m),
     err).

Definition m_levelDbWrite (key offset size : Z) : Eff (option error) :=
  fun m =>
    let '(db', err) := levelDbWrite (db m) key offset size in
    ([EvDbPut (NeedleIdToBytes key)], withDb m db', err).

Definition m_levelDbDelete (key : Z) : Eff (option error) :=
  fun m =>
    let '(db', err) := levelDbDelete (db m) key in
    ([EvDbDelete (NeedleIdToBytes key)], withDb m db', err).

Definition indexFileName : Eff string := fun m => ([], m, Name (indexFile m)).

Definition Put (key offset size : Z) : Eff (option error) :=
  oldNeedle <- mGet key ;;
  let oldSize := match oldNeedle with Some n => Size n | None => 0 end in
  m_logPut key oldSize size ;;;
  err <- m_appendToIndexFile key offset size ;;
  match err with
  | Some err =>
      name <- indexFileName ;;
      ret (Some ("cannot write to indexfile " +:+ name +:+ ": " +:+ err))
  | None => m_levelDbWrite key offset size
  end.

Definition Delete (key offset : Z) : Eff (option error) :=
  oldNeedle <- mGet key ;;
  match oldNeedle with
  | Some n => m_logDelete (Size n)
  | None => ret tt
  end ;;;
  err <- m_appendToIndexFile key offset TombstoneFileSize ;;
  match err with
  | Some err => ret (Some err)
  | None => m_levelDbDelete key
  end.

(** *** Sequences of operations *)
Inductive Op :=
| OpPut (key offset size : Z)
| OpDelete (key offset : Z).

Definition applyOp (op : Op) : Eff (option error) :=
  match op with
  | OpPut key offset size => Put key offset size
  | OpDelete key offset => Delete key offset
  end.

(** Runs the operations one after the other and collects what each
    returned. *)
Fixpoint runOps (ops : list Op) (m : LevelDbNeedleMap)
  : LevelDbNeedleMap * list (option error) :=
  match ops with
  | [] => (m, [])
  | op :: rest =>
      let '(_, m1, err) := applyOp op m in
      let '(m2, errs) := runOps rest m1 in
      (m2, err :: errs)
  end.




(** An operation whose record a replay keeps as written: a [Put] of a
    non-zero offset and a size other than the tombstone, or a [Delete]. *)
Definition replayable (op : Op) : Prop :=
  match op with
  | OpPut _ offset size => IsZero offset = false /\ size <> TombstoneFileSize
  | OpDelete _ _ => True
  end.

End storage.

(** ** Go slices

    A slice value is [None] for Go's nil and [Some l] otherwise; [append]
    of nothing to nil is still nil. *)
Definition go_append {A} (s : option (list A)) (l : list A) : option (list A) :=
  match s, l with
  | None, [] => None
  | None, _ :: _ => Some l
  | Some s, _ => Some (s ++ l)
  end.

(** [util.ConcurrentReadMap.Items]: the values of the map.  Go leaves the
    order unspecified; the model enumerates them in the order of
    [map_to_list]. *)
Definition Items {V} (m : gmap string V) : list V := (map_to_list m).*2.

(** ** The consensus handle (chrislusf/raft), as far as the topology uses it *)
Module raft.

(** The state name [raft.Leader]. *)
Definition Leader : string := "leader".
Definition Follower : string := "follower".

Module Server.
Record t := mk {
  State : string;    (* Server.State() *)
  Leader : string;   (* Server.Leader(): the leader's name, empty when none *)
  Name : string      (* Server.Name() *)
}.
End Server.

End raft.

(** ** weed/topology *)
Module topology.

(** [storage.VolumeInfo], with the fields the topology reads. *)
Record VolumeInfo := mkVolumeInfo {
  Id : Z;
  Collection_ : string;
  ReplicaPlacement : Z;
  Ttl : Z;
  Size : Z;
  ReadOnly : bool
}.

(** A [*DataNode] is referred to by its node id. *)
Definition DataNodeRef := string.

Record DataNode := mkDataNode {
  dnId : DataNodeRef;
  volumes : gmap Z VolumeInfo
}.

(** Modelled from the spec: [VolumeLayout] (volume_layout.go) is not among
    the sources.  §3: it tracks, per VolumeId, which Data Nodes currently
    hold a copy, and is empty once it holds no volume; §4.3:
    RegisterVolume / UnRegisterVolume add / remove a (VolumeInfo, DataNode)
    pairing, [isEmpty] is true once no volume is registered; §8: registering
    V with D1 and then D2 makes Lookup return both, unregistering D1 leaves
    only D2. *)
Module VolumeLayout.

Record t := mk {
  rp : Z;
  ttl : Z;
  volumeSizeLimit : Z;
  vid2location : gmap Z (list DataNodeRef)
}.

Definition New (rp ttl volumeSizeLimit : Z) : t := mk rp ttl volumeSizeLimit ∅.

Definition Lookup (vl : t) (vid : Z) : option (list DataNodeRef) :=
  vid2location vl !! vid.

Definition RegisterVolume (vl : t) (v : VolumeInfo) (dn : DataNodeRef) : t :=
  let old := default [] (vid2location vl !! Id v) in
  let new := if bool_decide (dn ∈ old) then old else old ++ [dn] in
  mk (rp vl) (ttl vl) (volumeSizeLimit vl) (<[Id v := new]> (vid2location vl)).

Fixpoint remove_first (dn : DataNodeRef) (l : list DataNodeRef) : list DataNodeRef :=
  match l with
  | [] => []
  | x :: rest => if bool_decide (x = dn) then rest else x :: remove_first dn rest
  end.

Definition UnRegisterVolume (vl : t) (v : VolumeInfo) (dn : DataNodeRef) : t :=
  match vid2location vl !! Id v with
  | None => vl
  | Some location =>
      if bool_decide (dn ∈ location) then
        let location' := remove_first dn location in
        mk (rp vl) (ttl vl) (volumeSizeLimit vl)
           (if bool_decide (length location' = 0%nat)
            then delete (Id v) (vid2location vl)
            else <[Id v := location']> (vid2location vl))
      else vl
  end.

Definition isEmpty (vl : t) : bool := bool_decide (size (vid2location vl) = 0%nat).

End VolumeLayout.

(** Modelled from the spec: [Collection] (collection.go) is not among the
    sources.  §3: a named container of VolumeLayouts, keyed by replica
    placement and TTL, each created on first reference; its [Lookup] gives
    the replica list of the first layout that knows the volume. *)
Module Collection.

Record t := mk {
  Name : string;
  volumeSizeLimit : Z;
  storageType2VolumeLayout : gmap (Z * Z) VolumeLayout.t
}.

Definition New (name : string) (volumeSizeLimit : Z) : t := mk name volumeSizeLimit ∅.

(** The layout for [(rp, ttl)], created when absent; the collection is
    returned with it since the layout lives inside the collection. *)
Definition GetOrCreateVolumeLayout (c : t) (rp ttl : Z) : t * VolumeLayout.t :=
  match storageType2VolumeLayout c !! (rp, ttl) with
  | Some vl => (c, vl)
  | None =>
      let vl := VolumeLayout.New rp ttl (volumeSizeLimit c) in
      (mk (Name c) (volumeSizeLimit c) (<[(rp, ttl) := vl]> (storageType2VolumeLayout c)), vl)
  end.

(** Writes a layout back after it was changed through its pointer. *)
Definition store (c : t) (vl : VolumeLayout.t) : t :=
  mk (Name c) (volumeSizeLimit c)
     (<[(VolumeLayout.rp vl, VolumeLayout.ttl vl) := vl]> (storageType2VolumeLayout c)).

Fixpoint first_found (vls : list VolumeLayout.t) (vid : Z) : option (list DataNodeRef) :=
  match vls with
  | [] => None
  | vl :: rest =>
      match VolumeLayout.Lookup vl vid with
      | Some list => Some list
      | None => first_found rest vid
      end
  end.

Definition Lookup (c : t) (vid : Z) : option (list DataNodeRef) :=
  first_found (map_to_list (storageType2VolumeLayout c)).*2 vid.

End Collection.

(** [EcShardLocations] (topology_ec.go, not among the sources): the
    collection of an erasure-coded volume and, per shard, the nodes that
    hold it. *)
Record EcShardLocations := mkEcShardLocations {
  ecCollection : string;
  Locations : list (list DataNodeRef)
}.

Record Topology := mkTopology {
  id : string;
  collectionMap : gmap string Collection.t;
  ecShardMap : gmap Z EcShardLocations;
  volumeSizeLimit : Z;
  RaftServer : option raft.Server.t
}.

Definition NewTopology (id : string) (volumeSizeLimit : Z) : Topology :=
  mkTopology id ∅ ∅ volumeSizeLimit None.

Definition withCollections (t : Topology) (cm : gmap string Collection.t) : Topology :=
  mkTopology (id t) cm (ecShardMap t) (volumeSizeLimit t) (RaftServer t).

Definition IsLeader (t : Topology) : bool :=
  match RaftServer t with
  | Some rs => bool_decide (raft.Server.State rs = raft.Leader)
  | None => false
  end.

Definition Leader (t : Topology) : string * option error :=
  match RaftServer t with
  | None => ("", Some "Raft Server not ready yet!")
  | Some rs =>
      let l := raft.Server.Leader rs in
      if bool_decide (l = "")
      then (raft.Server.Name rs, Some "Raft Server not initialized!")
      else (l, None)
  end.

(** [LookupEcShards] (topology_ec.go): a read of [ecShardMap]. *)
Definition LookupEcShards (t : Topology) (vid : Z) : option EcShardLocations :=
  ecShardMap t !! vid.

(** The loop of [Lookup] over every collection: the first list that is not
    nil is returned. *)
Fixpoint lookup_each (cs : list Collection.t) (vid : Z) : option (list DataNodeRef) :=
  match cs with
  | [] => None
  | c :: rest =>
      match Collection.Lookup c vid with
      | Some list => Some list
      | None => lookup_each rest vid
      end
  end.

(** The shard loop of [Lookup]: every shard's list appended to the result. *)
Definition flatten_shards (locations : list (list DataNodeRef)) : option (list DataNodeRef) :=
  fold_left go_append locations None.

(** [Lookup].  The first component of [returned] says whether the
    collection part of the function executed a [return]. *)
Definition Lookup (t : Topology) (collection : string) (vid : Z)
  : option (list DataNodeRef) :=
  let returned : option (option (list DataNodeRef)) :=
    if bool_decide (collection = "") then
      match lookup_each (Items (collectionMap t)) vid with
      | Some list => Some (Some list)
      | None => None
      end
    else
      match collectionMap t !! collection with
      | Some c => Some (Collection.Lookup c vid)
      | None => None
      end in
  match returned with
  | Some dataNodes => dataNodes
  | None =>
      match LookupEcShards t vid with
      | Some locations => flatten_shards (Locations locations)
      | None => None
      end
  end.

(** [GetVolumeLayout]: the collection is created on first reference
    ([ConcurrentReadMap.Get] with a constructor), then the layout. *)
Definition GetVolumeLayout (t : Topology) (collectionName : string) (rp ttl : Z)
  : Topology * VolumeLayout.t :=
  let c := default (Collection.New collectionName (volumeSizeLimit t))
                   (collectionMap t !! collectionName) in
  let '(c', vl) := Collection.GetOrCreateVolumeLayout c rp ttl in
  (withCollections t (<[collectionName := c']> (collectionMap t)), vl).

(** Writes a layout back into its collection after a change made through
    the pointer [GetVolumeLayout] returned. *)
Definition storeLayout (t : Topology) (collectionName : string) (vl : VolumeLayout.t)
  : Topology :=
  match collectionMap t !! collectionName with
  | Some c => withCollections t (<[collectionName := Collection.store c vl]> (collectionMap t))
  | None => t
  end.

(** [ListCollections]: the names are gathered in a Go map used as a set. *)
Definition ListCollections (t : Topology) (includeNormalVolumes includeEcVolumes : bool)
  : list string :=
  let fromCollections : gset string :=
    list_to_set (Collection.Name <$> Items (collectionMap t)) in
  let fromEc : gset string :=
    if includeEcVolumes
    then list_to_set (ecCollection <$> (map_to_list (ecShardMap t)).*2)
    else ∅ in
  elements (fromCollections ∪ fromEc).

Definition FindCollection (t : Topology) (collectionName : string) : option Collection.t :=
  collectionMap t !! collectionName.

Definition DeleteCollection (t : Topology) (collectionName : string) : Topology :=
  withCollections t (delete collectionName (collectionMap t)).

Definition RegisterVolumeLayout (t : Topology) (v : VolumeInfo) (dn : DataNodeRef)
  : Topology :=
  let '(t1, vl) := GetVolumeLayout t (Collection_ v) (ReplicaPlacement v) (Ttl v) in
  storeLayout t1 (Collection_ v) (VolumeLayout.RegisterVolume vl v dn).

Definition UnRegisterVolumeLayout (t : Topology) (v : VolumeInfo) (dn : DataNodeRef)
  : Topology :=
  let '(t1, volumeLayout) :=
    GetVolumeLayout t (Collection_ v) (ReplicaPlacement v) (Ttl v) in
  let volumeLayout := VolumeLayout.UnRegisterVolume volumeLayout v dn in
  let t2 := storeLayout t1 (Collection_ v) volumeLayout in
  if VolumeLayout.isEmpty volumeLayout
  then DeleteCollection t2 (Collection_ v)
  else t2.

(** The replica list the layout for (collection, placement, TTL) holds for
    a volume; empty when the collection, the layout or the volume is not
    known. *)
Definition locationsOf (t : Topology) (collection : string) (rp ttl vid : Z)
  : list DataNodeRef :=
  match collectionMap t !! collection with
  | Some c =>
      match Collection.storageType2VolumeLayout c !! (rp, ttl) with
      | Some vl => default [] (VolumeLayout.Lookup vl vid)
      | None => []
      end
  | None => []
  end.

(** The topology records the node as holding the volume. *)
Definition holds (t : Topology) (v : VolumeInfo) (dn : DataNodeRef) : Prop :=
  dn ∈ locationsOf t (Collection_ v) (ReplicaPlacement v) (Ttl v) (Id v).

(** What the topology's own operations maintain: every layout sits under
    its own placement and TTL, and no replica list names a node twice. *)
Definition wellKept (t : Topology) : Prop :=
  map_Forall (fun _ c =>
    map_Forall (fun k vl =>
      k = (VolumeLayout.rp vl, VolumeLayout.ttl vl)
      /\ map_Forall (fun _ l => NoDup l) (VolumeLayout.vid2location vl))
      (Collection.storageType2VolumeLayout c)) (collectionMap t).

(** The collection and the layout [GetVolumeLayout] finds or creates for a
    volume. *)
Definition collectionFor (t : Topology) (v : VolumeInfo) : Collection.t :=
  default (Collection.New (Collection_ v) (volumeSizeLimit t))
          (collectionMap t !! Collection_ v).

Definition layoutFor (t : Topology) (v : VolumeInfo) : VolumeLayout.t :=
  default (VolumeLayout.New (ReplicaPlacement v) (Ttl v)
             (Collection.volumeSizeLimit (collectionFor t v)))
          (Collection.storageType2VolumeLayout (collectionFor t v)
             !! (ReplicaPlacement v, Ttl v)).

(** The collection map after a layout of the volume's collection was
    replaced by [vl']. *)
Definition withLayout (t : Topology) (v : VolumeInfo) (vl' : VolumeLayout.t)
  : gmap string Collection.t :=
  <[Collection_ v :=
      Collection.mk (Collection.Name (collectionFor t v))
        (Collection.volumeSizeLimit (collectionFor t v))
        (<[(ReplicaPlacement v, Ttl v) := vl']>
           (Collection.storageType2VolumeLayout (collectionFor t v)))]>
    (collectionMap t).

(** [VolumeGrowOption], with the fields the topology reads. *)
Module VolumeGrowOption.
Record t := mk {
  Collection : string;
  ReplicaPlacement : Z;
  Ttl : Z
}.
End VolumeGrowOption.


(** A protocol record is well formed when its conversion returns no
    error. *)
Definition converts {M : Type} (conv : M -> VolumeInfo * option error) (v : M) : Prop :=
  (conv v).2 = None.

#[global] Instance converts_dec {M : Type} (conv : M -> VolumeInfo * option error) (v : M)
  : Decision (converts conv v).
Proof. unfold converts. apply _. Defined.

(** *** Registration

    The conversions from protocol messages ([storage.NewVolumeInfo],
    [storage.NewVolumeInfoFromShort]) and the data node's own bookkeeping
    ([UpdateVolumes], [DeltaUpdateVolumes]) are not among the sources; they
    are parameters.  A conversion returns the value together with the
    error, as in Go.  The warnings written with [glog] are collected. *)
Section Registration.

Variables VolumeInformationMessage VolumeShortInformationMessage : Type.
Variable NewVolumeInfo : VolumeInformationMessage -> VolumeInfo * option error.
Variable NewVolumeInfoFromShort : VolumeShortInformationMessage -> VolumeInfo * option error.
Variable show : VolumeShortInformationMessage -> string.
Variable UpdateVolumes :
  DataNode -> list VolumeInfo -> DataNode * list VolumeInfo * list VolumeInfo.
Variable DeltaUpdateVolumes :
  DataNode -> list VolumeInfo -> list VolumeInfo -> DataNode.

(** The conversion loop of [SyncDataNodeRegistration]. *)
Fixpoint convert (volumes : list VolumeInformationMessage)
  : list VolumeInfo * list string :=
  match volumes with
  | [] => ([], [])
  | v :: rest =>
      let '(volumeInfos, warnings) := convert rest in
      match NewVolumeInfo v with
      | (vi, None) => (vi :: volumeInfos, warnings)
      | (_, Some err) =>
          (volumeInfos, ("Fail to convert joined volume information: " +:+ err) :: warnings)
      end
  end.

(** The two conversion loops of [IncrementalSyncDataNodeRegistration]. *)
Fixpoint convertShort (volumes : list VolumeShortInformationMessage)
  : list VolumeInfo * list string :=
  match volumes with
  | [] => ([], [])
  | v :: rest =>
      let '(vis, warnings) := convertShort rest in
      match NewVolumeInfoFromShort v with
      | (_, Some err) =>
          (vis, ("NewVolumeInfoFromShort " +:+ show v +:+ ": " +:+ err) :: warnings)
      | (vi, None) => (vi :: vis, warnings)
      end
  end.

(** The warning logged for a record, if any. *)
Definition warning (v : VolumeInformationMessage) : option string :=
  (fun err => "Fail to convert joined volume information: " +:+ err)
    <$> (NewVolumeInfo v).2.

Definition warningShort (v : VolumeShortInformationMessage) : option string :=
  (fun err => "NewVolumeInfoFromShort " +:+ show v +:+ ": " +:+ err)
    <$> (NewVolumeInfoFromShort v).2.

Definition registerAll (t : Topology) (vs : list VolumeInfo) (dn : DataNodeRef) : Topology :=
  fold_left (fun t v => RegisterVolumeLayout t v dn) vs t.

Definition unregisterAll (t : Topology) (vs : list VolumeInfo) (dn : DataNodeRef) : Topology :=
  fold_left (fun t v => UnRegisterVolumeLayout t v dn) vs t.

Record SyncResult := mkSyncResult {
  topo : Topology;
  node : DataNode;
  newVolumes : list VolumeInfo;
  deletedVolumes : list VolumeInfo;
  warnings : list string
}.

Definition SyncDataNodeRegistration (t : Topology)
    (volumes : list VolumeInformationMessage) (dn : DataNode) : SyncResult :=
  let '(volumeInfos, warnings) := convert volumes in
  let '(dn', newVolumes, deletedVolumes) := UpdateVolumes dn volumeInfos in
  let t := registerAll t newVolumes (dnId dn') in
  let t := unregisterAll t deletedVolumes (dnId dn') in
  mkSyncResult t dn' newVolumes deletedVolumes warnings.

Definition IncrementalSyncDataNodeRegistration (t : Topology)
    (newVolumes deletedVolumes : list VolumeShortInformationMessage) (dn : DataNode)
  : SyncResult :=
  let '(newVis, w1) := convertShort newVolumes in
  let '(oldVis, w2) := convertShort deletedVolumes in
  let dn' := DeltaUpdateVolumes dn newVis oldVis in
  let t := registerAll t newVis (dnId dn') in
  let t := unregisterAll t oldVis (dnId dn') in
  mkSyncResult t dn' newVis oldVis (w1 ++ w2).

End Registration.

End topology.

(** ** Go's crypto/md5 (RFC 1321), on byte lists *)
Module md5.

Definition Size : nat := 16.

Definition u32 (x : Z) : Z := x mod 2 ^ 32.

Definition rotl (x c : Z) : Z :=
  u32 (Z.lor (Z.shiftl x c) (Z.shiftr x (32 - c))).

Definition not32 (x : Z) : Z := Z.lxor x 4294967295.

Definition shifts : list Z :=
  [7; 12; 17; 22; 7; 12; 17; 22; 7; 12; 17; 22; 7; 12; 17; 22;
   5; 9; 14; 20; 5; 9; 14; 20; 5; 9; 14; 20; 5; 9; 14; 20;
   4; 11; 16; 23; 4; 11; 16; 23; 4; 11; 16; 23; 4; 11; 16; 23;
   6; 10; 15; 21; 6; 10; 15; 21; 6; 10; 15; 21; 6; 10; 15; 21].

Definition sines : list Z :=
  [3614090360; 3905402710; 606105819; 3250441966;
   4118548399; 1200080426; 2821735955; 4249261313;
   1770035416; 2336552879; 4294925233; 2304563134;
   1804603682; 4254626195; 2792965006; 1236535329;
   4129170786; 3225465664; 643717713; 3921069994;
   3593408605; 38016083; 3634488961; 3889429448;
   568446438; 3275163606; 4107603335; 1163531501;
   2850285829; 4243563512; 1735328473; 2368359562;
   4294588738; 2272392833; 1839030562; 4259657740;
   2763975236; 1272893353; 4139469664; 3200236656;
   681279174; 3936430074; 3572445317; 76029189;
   3654602809; 3873151461; 530742520; 3299628645;
   4096336452; 1126891415; 2878612391; 4237533241;
   1700485571; 2399980690; 4293915773; 2240044497;
   1873313359; 4264355552; 2734768916; 1309151649;
   4149444226; 3174756917; 718787259; 3951481745].

(** Little-endian bytes of a word, and back. *)
Definition le_bytes4 (x : Z) : list Z :=
  [Z.land x 255; Z.land (Z.shiftr x 8) 255;
   Z.land (Z.shiftr x 16) 255; Z.land (Z.shiftr x 24) 255].

Definition le_word (b : list Z) : Z :=
  fold_right (fun x acc => x + 256 * acc) 0 b.

(** The sixteen words of a 64-byte block. *)
Fixpoint words (n : nat) (block : list Z) : list Z :=
  match n with
  | O => []
  | S n' => le_word (take 4 block) :: words n' (drop 4 block)
  end.

Definition round (M : list Z) (st : Z * Z * Z * Z) (i : nat) : Z * Z * Z * Z :=
  let '(A, B, C, D) := st in
  let i' := Z.of_nat i in
  let '(F, g) :=
    if i' <? 16 then (Z.lor (Z.land B C) (Z.land (not32 B) D), i')
    else if i' <? 32 then (Z.lor (Z.land D B) (Z.land (not32 D) C), (5 * i' + 1) mod 16)
    else if i' <? 48 then (Z.lxor (Z.lxor B C) D, (3 * i' + 5) mod 16)
    else (Z.lxor C (Z.lor B (not32 D)), (7 * i') mod 16) in
  let F := u32 (F + A + default 0 (sines !! i) + default 0 (M !! Z.to_nat g)) in
  (D, u32 (B + rotl F (default 0 (shifts !! i))), B, C).

Definition block (st : Z * Z * Z * Z) (blk : list Z) : Z * Z * Z * Z :=
  let '(a0, b0, c0, d0) := st in
  let '(A, B, C, D) := fold_left (round (words 16 blk)) (seq 0 64) st in
  (u32 (a0 + A), u32 (b0 + B), u32 (c0 + C), u32 (d0 + D)).

Definition pad (msg : list Z) : list Z :=
  let len := Z.of_nat (length msg) in
  let zeros := Z.to_nat ((55 - len) mod 64) in
  let bits := (8 * len) mod 2 ^ 64 in
  msg ++ [128] ++ replicate zeros 0
      ++ le_bytes4 (u32 bits) ++ le_bytes4 (Z.shiftr bits 32).

Fixpoint blocks (n : nat) (st : Z * Z * Z * Z) (bytes : list Z) : Z * Z * Z * Z :=
  match n with
  | O => st
  | S n' => blocks n' (block st (take 64 bytes)) (drop 64 bytes)
  end.

(** [h := md5.New(); h.Write(msg); h.Sum(nil)]. *)
Definition Sum (msg : list Z) : list Z :=
  let p := pad msg in
  let '(a, b, c, d) :=
    blocks (length p / 64) (1732584193, 4023233417, 2562383102, 271733878) p in
  le_bytes4 a ++ le_bytes4 b ++ le_bytes4 c ++ le_bytes4 d.

End md5.

(** The bytes of a Go string. *)
Definition bytes_of_string (s : string) : list Z :=
  (fun a => Z.of_nat (Ascii.nat_of_ascii a)) <$> String.list_ascii_of_string s.

(** [string(b)] for a byte slice. *)
Definition string_of_bytes (b : list Z) : string :=
  String.string_of_list_ascii ((fun x => Ascii.ascii_of_nat (Z.to_nat x)) <$> b).

(** Go's [int] (64 bits, two's complement). *)
Definition wrap_int (x : Z) : Z := (x + 2 ^ 63) mod 2 ^ 64 - 2 ^ 63.

(** What a Go call does: it returns, or the goroutine panics. *)
Inductive outcome (A : Type) :=
| Returns (a : A)
| Panics (why : string).
Arguments Returns {A} a.
Arguments Panics {A} why.

(** ** The leveldb2 filer store *)
Module leveldb2.

Record LevelDB2Store := mkStore {
  dbs : list (gmap (list Z) (list Z));
  dbCount : Z
}.

(** hash directory, and use last byte for partitioning *)
Definition hashToBytes (dir : string) (dbCount : Z) : outcome (list Z * Z) :=
  let b := md5.Sum (bytes_of_string dir) in
  match b !! (length b - 1)%nat with
  | None => Panics "index out of range"
  | Some x =>
      if bool_decide (dbCount = 0) then Panics "integer divide by zero"
      else Returns (b, Z.rem x dbCount)
  end.

(** The byte [hashToBytes] partitions on: the last one of the digest. *)
Definition lastByte (dir : string) : Z :=
  default 0 (last (md5.Sum (bytes_of_string dir))).

Definition genKey (dirPath fileName : string) (dbCount : Z) : outcome (list Z * Z) :=
  match hashToBytes dirPath dbCount with
  | Panics why => Panics why
  | Returns (key, partitionId) => Returns (key ++ bytes_of_string fileName, partitionId)
  end.

Definition getNameFromKey (key : list Z) : outcome (list Z) :=
  if bool_decide (length key < md5.Size)%nat then Panics "slice bounds out of range"
  else Returns (drop md5.Size key).

(** [store.dbs[partitionId]]: the index must be within the slice. *)
Definition shard (store : LevelDB2Store) (partitionId : Z)
  : option (gmap (list Z) (list Z)) :=
  if bool_decide (0 <= partitionId) then dbs store !! Z.to_nat partitionId else None.

(** The store with shard [partitionId] replaced. *)
Definition withShard (store : LevelDB2Store) (partitionId : Z)
    (db : gmap (list Z) (list Z)) : LevelDB2Store :=
  mkStore (<[Z.to_nat partitionId := db]> (dbs store)) (dbCount store).

(** [initialize]: [writable] is the result of [TestFolderWritable] and
    [folders d] what [leveldb.OpenFile] finds at folder number [d].  When
    an open fails the function returns at once, with the error result
    still nil and [dbCount] not set. *)
Fixpoint openAll (store : LevelDB2Store) (folders : nat -> leveldb.Dir) (ds : list nat)
  : LevelDB2Store * bool :=
  match ds with
  | [] => (store, true)
  | d :: rest =>
      match leveldb.OpenFile (folders d) with
      | inr dbErr => (store, false)
      | inl db => openAll (mkStore (dbs store ++ [db]) (dbCount store)) folders rest
      end
  end.

Definition initialize (store : LevelDB2Store) (dir : string) (writable : option error)
    (folders : nat -> leveldb.Dir) (dbCount : Z) : LevelDB2Store * option error :=
  match writable with
  | Some err =>
      (store, Some ("Check Level Folder " +:+ dir +:+ " Writable: " +:+ err))
  | None =>
      match openAll store folders (seq 0 (Z.to_nat dbCount)) with
      | (store', false) => (store', None)
      | (store', true) => (mkStore (dbs store') dbCount, None)
      end
  end.

(** [Initialize]: eight shards. *)
Definition Initialize (store : LevelDB2Store) (dir : string) (writable : option error)
    (folders : nat -> leveldb.Dir) : LevelDB2Store * option error :=
  initialize store dir writable folders 8.

Definition genDirectoryKeyPrefix (fullpath startFileName : string) (dbCount : Z)
  : outcome (list Z * Z) :=
  match hashToBytes fullpath dbCount with
  | Panics why => Panics why
  | Returns (keyPrefix, partitionId) =>
      if bool_decide (0 < String.length startFileName)%nat
      then Returns (keyPrefix ++ bytes_of_string startFileName, partitionId)
      else Returns (keyPrefix, partitionId)
  end.

(** [filer2.Entry] and its codec are not among the sources: the attributes
    and chunks are an opaque [Payload], and [DirAndName],
    [EncodeAttributesAndChunks], [DecodeAttributesAndChunks] are
    parameters.  An entry's [DirAndName] is that of its [FullPath]. *)
Section Entries.

Variable Payload : Type.

Record Entry := mkEntry { FullPath : string; payload : Payload }.

Variable DirAndName : string -> string * string.
Variable EncodeAttributesAndChunks : Entry -> list Z * option error.
Variable DecodeAttributesAndChunks : Entry -> list Z -> Entry * option error.
Variable zero : Payload.

Definition InsertEntry (store : LevelDB2Store) (entry : Entry)
  : outcome (LevelDB2Store * option error) :=
  let '(dir, name) := DirAndName (FullPath entry) in
  match genKey dir name (dbCount store) with
  | Panics why => Panics why
  | Returns (key, partitionId) =>
      match EncodeAttributesAndChunks entry with
      | (_, Some err) =>
          Returns (store, Some ("encoding " +:+ FullPath entry +:+ ": " +:+ err))
      | (value, None) =>
          match shard store partitionId with
          | None => Panics "index out of range"
          | Some db =>
              match leveldb.Put db key value with
              | (db', Some err) =>
                  Returns (withShard store partitionId db',
                           Some ("persisting " +:+ FullPath entry +:+ " : " +:+ err))
              | (db', None) => Returns (withShard store partitionId db', None)
              end
          end
      end
  end.

Definition UpdateEntry := InsertEntry.

Definition ErrNotFound : error := "filer: no entry is found in filer store".

Definition FindEntry (store : LevelDB2Store) (fullpath : string)
  : outcome (option Entry * option error) :=
  let '(dir, name) := DirAndName fullpath in
  match genKey dir name (dbCount store) with
  | Panics why => Panics why
  | Returns (key, partitionId) =>
      match shard store partitionId with
      | None => Panics "index out of range"
      | Some db =>
          match leveldb.Get db key with
          | (_, Some err) =>
              if bool_decide (err = leveldb.ErrNotFound)
              then Returns (None, Some ErrNotFound)
              else Panics "nil pointer dereference"
          | (data, None) =>
              let entry := mkEntry fullpath zero in
              match DecodeAttributesAndChunks entry data with
              | (entry', Some err) =>
                  Returns (Some entry', Some ("decode " +:+ fullpath +:+ " : " +:+ err))
              | (entry', None) => Returns (Some entry', None)
              end
          end
      end
  end.

Definition DeleteEntry (store : LevelDB2Store) (fullpath : string)
  : outcome (LevelDB2Store * option error) :=
  let '(dir, name) := DirAndName fullpath in
  match genKey dir name (dbCount store) with
  | Panics why => Panics why
  | Returns (key, partitionId) =>
      match shard store partitionId with
      | None => Panics "index out of range"
      | Some db =>
          match leveldb.Delete db key with
          | (db', Some err) =>
              Returns (withShard store partitionId db',
                       Some ("delete " +:+ fullpath +:+ " : " +:+ err))
          | (db', None) => Returns (withShard store partitionId db', None)
          end
      end
  end.

(** [filer2.NewFullPath] is not among the sources either. *)
Variable NewFullPath : string -> string -> string.

(** The loop of [ListDirectoryEntries] over what the iterator yields.
    [break] ends the loop with what was collected, [continue] goes on to
    the next pair. *)
Fixpoint listLoop (directoryPrefix : list Z) (fullpath startFileName : string)
    (inclusive : bool) (iter : list (list Z * list Z)) (limit : Z)
    (entries : list Entry) : outcome (list Entry * option error) :=
  match iter with
  | [] => Returns (entries, None)
  | (key, value) :: rest =>
      if negb (bool_decide (directoryPrefix `prefix_of` key))
      then Returns (entries, None)
      else
        match getNameFromKey key with
        | Panics why => Panics why
        | Returns name =>
            let fileName := string_of_bytes name in
            if bool_decide (fileName = "")
            then listLoop directoryPrefix fullpath startFileName inclusive rest limit entries
            else if bool_decide (fileName = startFileName) && negb inclusive
            then listLoop directoryPrefix fullpath startFileName inclusive rest limit entries
            else
              let limit := wrap_int (limit - 1) in
              if limit <? 0 then Returns (entries, None)
              else
                let entry := mkEntry (NewFullPath fullpath fileName) zero in
                match DecodeAttributesAndChunks entry value with
                | (_, Some decodeErr) => Returns (entries, Some decodeErr)
                | (entry', None) =>
                    listLoop directoryPrefix fullpath startFileName inclusive rest limit
                             (entries ++ [entry'])
                end
        end
  end.

Definition ListDirectoryEntries (store : LevelDB2Store) (fullpath startFileName : string)
    (inclusive : bool) (limit : Z) : outcome (list Entry * option error) :=
  match genDirectoryKeyPrefix fullpath "" (dbCount store) with
  | Panics why => Panics why
  | Returns (directoryPrefix, partitionId) =>
      match genDirectoryKeyPrefix fullpath startFileName (dbCount store) with
      | Panics why => Panics why
      | Returns (lastFileStart, _) =>
          match shard store partitionId with
          | None => Panics "index out of range"
          | Some db =>
              listLoop directoryPrefix fullpath startFileName inclusive
                       (leveldb.NewIterator db lastFileStart) limit []
          end
      end
  end.

(** What a listing is expected to hold, for comparison with the loop: the
    pairs of the directory whose file name is not empty and is not the
    excluded start name ... *)
Definition listable (directoryPrefix : list Z) (startFileName : string)
    (inclusive : bool) (kv : list Z * list Z) : bool :=
  let fileName := string_of_bytes (drop md5.Size kv.1) in
  bool_decide (directoryPrefix `prefix_of` kv.1)
  && negb (bool_decide (fileName = ""))
  && negb (bool_decide (fileName = startFileName) && negb inclusive).

(** ... decoded one after the other up to the first value that does not
    decode. *)
Fixpoint decodeEntries (fullpath : string) (kvs : list (list Z * list Z))
    (entries : list Entry) : list Entry * option error :=
  match kvs with
  | [] => (entries, None)
  | (key, value) :: rest =>
      let fileName := string_of_bytes (drop md5.Size key) in
      match DecodeAttributesAndChunks (mkEntry (NewFullPath fullpath fileName) zero) value with
      | (_, Some decodeErr) => (entries, Some decodeErr)
      | (entry', None) => decodeEntries fullpath rest (entries ++ [entry'])
      end
  end.

End Entries.

End leveldb2.

(** Go's [strconv.Itoa]: the decimal digits, after a minus sign for a
    negative number. *)
Definition Itoa (i : Z) : string :=
  DecimalString.NilZero.string_of_int (Z.to_int i).

(** The character occurs in the string. *)
Fixpoint occurs (c : Ascii.ascii) (s : string) : Prop :=
  match s with
  | EmptyString => False
  | String c' s' => c' = c \/ occurs c s'
  end.

(** ** weed/storage/erasure_coding: one shard file of an erasure-coded volume *)
Module erasure_coding.

(** A file as [os] shows it: whether it opens, whether [Stat] works, its
    size. *)
Record FileNode := mkFileNode {
  openError : option error;
  statError : option error;
  fileSize : Z
}.

(** What [stats.VolumeServerVolumeCounter] was asked to do, call by call:
    the label values and the operation. *)
Inductive GaugeOp := Inc | Dec.

(** The machine a shard lives on: its files by name, and the calls the
    volume gauge has received. *)
Record Host := mkHost {
  files : gmap string FileNode;
  gaugeCalls : list (string * string * GaugeOp)
}.

(** The gauge's reading for a pair of label values. *)
Definition gaugeValue (calls : list (string * string * GaugeOp)) (l1 l2 : string) : Z :=
  foldl (fun v call =>
           match call with
           | (a, b, op) =>
               if bool_decide (a = l1 /\ b = l2)
               then match op with Inc => v + 1 | Dec => v - 1 end
               else v
           end) 0 calls.

Record EcVolumeShard := mkEcVolumeShard {
  VolumeId : Z;
  ShardId : Z;
  Collection : string;
  dir : string;
  ecdFile : option string;   (* the open file, by name; [None] is nil *)
  ecdFileSize : Z
}.

Section Shards.

(** [path.Join] of Go's library, and [ToExt], which is not among the
    sources (it gives a shard's file extension). *)
Variable Join : string -> string -> string.
Variable ToExt : Z -> string.

Definition EcShardFileName (collection dir : string) (id : Z) : string :=
  let idString := Itoa id in
  if bool_decide (collection = "")
  then Join dir idString
  else Join dir (collection +:+ "_" +:+ idString).

Definition EcShardBaseFileName (collection : string) (id : Z) : string :=
  let baseFileName := Itoa id in
  if bool_decide (collection <> "")
  then collection +:+ "_" +:+ baseFileName
  else baseFileName.

Definition FileName (shard : EcVolumeShard) : string :=
  EcShardFileName (Collection shard) (dir shard) (VolumeId shard).

Definition Size (shard : EcVolumeShard) : Z := ecdFileSize shard.

(** [os.OpenFile] read-only, then [Stat]. *)
Definition NewEcVolumeShard (h : Host) (dirname collection : string) (id shardId : Z)
  : Host * (option EcVolumeShard * option error) :=
  let v := mkEcVolumeShard id shardId collection dirname None 0 in
  let baseFileName := FileName v in
  let name := baseFileName +:+ ToExt shardId in
  let opened :=
    match files h !! name with
    | None => inr ("open " +:+ name +:+ ": no such file or directory")
    | Some node =>
        match openError node with
        | Some e => inr e
        | None => inl node
        end
    end in
  match opened with
  | inr e =>
      (h, (None, Some ("cannot read ec volume shard " +:+ baseFileName +:+ "."
                         +:+ ToExt shardId +:+ ": " +:+ e)))
  | inl node =>
      match statError node with
      | Some statErr =>
          (h, (None, Some ("can not stat ec volume shard " +:+ baseFileName +:+ "."
                             +:+ ToExt shardId +:+ ": " +:+ statErr)))
      | None =>
          (mkHost (files h) (gaugeCalls h ++ [(collection, "ec_shards", Inc)]),
           (Some (mkEcVolumeShard id shardId collection dirname (Some name) (fileSize node)),
            None))
      end
  end.

Definition Close (shard : EcVolumeShard) : EcVolumeShard :=
  match ecdFile shard with
  | Some _ =>
      mkEcVolumeShard (VolumeId shard) (ShardId shard) (Collection shard) (dir shard)
                      None (ecdFileSize shard)
  | None => shard
  end.

(** [Destroy]: the result of [os.Remove] is dropped. *)
Definition Destroy (h : Host) (shard : EcVolumeShard) : Host :=
  mkHost (delete (FileName shard +:+ ToExt (ShardId shard)) (files h))
         (gaugeCalls h ++ [(Collection shard, "ec_shards", Inc)]).

End Shards.

End erasure_coding.

(** ** Concrete needle maps used to exercise the properties *)
Module fixtures.

Import types storage.

Definition idx0 : IndexFile := mkIndexFile "1.idx" [] None.

Definition m0 : LevelDbNeedleMap :=
  mkLevelDbNeedleMap idx0 (mkMetric 0 0 0 0) "1.ldb" ∅.

(** The same index on a full disk. *)
Definition mFull : LevelDbNeedleMap :=
  mkLevelDbNeedleMap (mkIndexFile "1.idx" [] (Some "no space left on device"))
                     (mkMetric 0 0 0 0) "1.ldb" ∅.

(** §8: Put(42, 100, 50), Put(43, 200, 30), Delete(42, 100). *)
Definition scenarioLog : list IdxEntry :=
  [mkIdxEntry 42 100 50; mkIdxEntry 43 200 30; mkIdxEntry 42 100 TombstoneFileSize].

Definition noMetric (f : IndexFile) : mapMetric + error := inl (mkMetric 0 0 0 0).

(** A store directory left over from another index: it holds key 99, which
    the scenario log never mentions, and its LOG file is older than the
    index. *)
Definition staleDb : gmap (list Z) (list Z) :=
  {[ NeedleIdToBytes 99 := OffsetToBytes 7 ++ Uint32toBytes 11 ]}.

Definition staleDisk : Disk :=
  mkDisk (leveldb.Present staleDb) (Some (Some 5)) (Some 10).

(** A master with collection "pics" holding volume 1 (placement 000) and
    volume 2 (placement 001) on node dn1. *)
Definition v1 : topology.VolumeInfo := topology.mkVolumeInfo 1 "pics" 0 0 1024 false.
Definition v2 : topology.VolumeInfo := topology.mkVolumeInfo 2 "pics" 1 0 2048 false.

Definition topo12 : topology.Topology :=
  topology.RegisterVolumeLayout
    (topology.RegisterVolumeLayout (topology.NewTopology "master" 30000) v1 "dn1")
    v2 "dn1".

(** Collection "pics" with volume 1 on dn1, and erasure-coded volume 7 of
    the same collection with shards on dn2 and dn3. *)
Definition topoEc : topology.Topology :=
  let t := topology.RegisterVolumeLayout (topology.NewTopology "master" 30000) v1 "dn1" in
  topology.mkTopology (topology.id t) (topology.collectionMap t)
    {[ 7 := topology.mkEcShardLocations "pics" [["dn2"]; []; ["dn3"]] ]}
    (topology.volumeSizeLimit t) (topology.RaftServer t).

(** A master whose election mechanism is attached but reports no leader. *)
Definition soloMaster : topology.Topology :=
  topology.mkTopology "master" ∅ ∅ 30000
    (Some (raft.Server.mk raft.Follower "" "master:9333")).

(** Protocol records that carry their own conversion: the volume, and the
    error the conversion returns for the record. *)
Definition fromRecord (m : topology.VolumeInfo * option error)
  : topology.VolumeInfo * option error := m.

Definition showRecord (m : topology.VolumeInfo * option error) : string :=
  "id:" +:+ Itoa (topology.Id m.1).

(** Stand-ins for the data node's bookkeeping: every volume reported is
    new, and a delta is applied as it comes. *)
Definition updateAll (dn : topology.DataNode) (vis : list topology.VolumeInfo)
  : topology.DataNode * list topology.VolumeInfo * list topology.VolumeInfo :=
  (topology.mkDataNode (topology.dnId dn)
     (list_to_map ((fun v => (topology.Id v, v)) <$> vis)), vis, []).

Definition updateDelta (dn : topology.DataNode) (newVis oldVis : list topology.VolumeInfo)
  : topology.DataNode :=
  topology.mkDataNode (topology.dnId dn)
    (fold_left (fun m v => delete (topology.Id v) m) oldVis
       (fold_left (fun m v => <[topology.Id v := v]> m) newVis (topology.volumes dn))).

(** A stand-in for [filer2.FullPath.DirAndName] (path.Split, with the
    trailing slash of the directory dropped). *)
Fixpoint splitPath (s : string) : string * string :=
  match s with
  | EmptyString => (EmptyString, EmptyString)
  | String c rest =>
      let '(d, n) := splitPath rest in
      if bool_decide (d = EmptyString)
      then (if bool_decide (String c EmptyString = "/") then ("/", n) else (EmptyString, String c n))
      else (String c d, n)
  end.

Definition dropLast (s : string) : string :=
  String.substring 0 (String.length s - 1) s.

Definition DirAndName (fp : string) : string * string :=
  let '(dir, name) := splitPath fp in
  if bool_decide (dir = "/") then (dir, name)
  else if bool_decide (dir = EmptyString) then ("/", EmptyString)
  else (dropLast dir, name).

(** Entries whose payload is its own encoding. *)
Definition encode (e : leveldb2.Entry (list Z)) : list Z * option error :=
  (leveldb2.payload _ e, None).

Definition decode (e : leveldb2.Entry (list Z)) (data : list Z)
  : leveldb2.Entry (list Z) * option error :=
  (leveldb2.mkEntry _ (leveldb2.FullPath _ e) data, None).

(** A store initialised over empty folders. *)
Definition store8 : leveldb2.LevelDB2Store :=
  fst (leveldb2.Initialize (leveldb2.mkStore [] 0) "/data/filer" None
         (fun _ => leveldb.Missing)).

Definition photo : leveldb2.Entry (list Z) :=
  leveldb2.mkEntry _ "/home/photos/a.jpg" [1; 2; 3].

(** The store after "/home/photos/a.jpg" was inserted. *)
Definition storePhoto : leveldb2.LevelDB2Store :=
  match leveldb2.InsertEntry _ DirAndName encode store8 photo with
  | Returns (store, _) => store
  | Panics _ => store8
  end.

(** A stand-in for [filer2.NewFullPath]. *)
Definition joinPath (dir name : string) : string := dir +:+ "/" +:+ name.

(** Shard folders of which the fourth holds a damaged store. *)
Definition damagedFolders (d : nat) : leveldb.Dir :=
  if (d =? 3)%nat then leveldb.Corrupt "manifest corrupted" else leveldb.Missing.

End fixtures.
(** * Properties *)

(** ** Byte encodings *)
Section Encoding.

Lemma be_bytes_length n x : length (be_bytes n x) = n.
Proof. induction n as [|n IH]; simpl; [done | by rewrite IH]. Qed.

Lemma be_fold n x acc :
  fold_left (fun a b => a * 256 + b) (be_bytes n x) acc
  = acc * 2 ^ (8 * Z.of_nat n) + x mod 2 ^ (8 * Z.of_nat n).
Proof.
  revert acc. induction n as [|n IH]; intros acc.
  - simpl. rewrite Z.mod_1_r. lia.
  - cbn [be_bytes fold_left]. rewrite IH.
    replace (8 * Z.of_nat (S n)) with (8 * Z.of_nat n + 8) by lia.
    rewrite Z.pow_add_r by lia.
    change 255 with (Z.ones 8). rewrite Z.land_ones by lia.
    rewrite Z.shiftr_div_pow2 by lia.
    set (p := 2 ^ (8 * Z.of_nat n)).
    assert (Hp : 0 < p) by (apply Z.pow_pos_nonneg; lia).
    rewrite (Z.rem_mul_r x p (2 ^ 8)) by lia.
    ring.
Qed.

Lemma be_value_be_bytes n x :
  be_value (be_bytes n x) = x mod 2 ^ (8 * Z.of_nat n).
Proof. unfold be_value. rewrite be_fold. lia. Qed.

Lemma be_bytes_byte n x b : b ∈ be_bytes n x -> 0 <= b < 256.
Proof.
  induction n as [|n IH]; simpl; [by intros ?%elem_of_nil|].
  intros [->|?]%elem_of_cons; [|by apply IH].
  change 255 with (Z.ones 8). rewrite Z.land_ones by lia.
  apply Z.mod_pos_bound. lia.
Qed.

End Encoding.

(** ** The needle index *)
Section NeedleIndex.

Import types storage.

Implicit Types (m : LevelDbNeedleMap) (d : gmap (list Z) (list Z)).

Lemma levelDbWrite_insert d key offset size :
  levelDbWrite d key offset size
  = (<[NeedleIdToBytes key := OffsetToBytes offset ++ Uint32toBytes size]> d, None).
Proof.
  unfold levelDbWrite, leveldb.Put.
  rewrite take_app_length', drop_app_length'; auto; symmetry; apply be_bytes_length.
Qed.

Lemma Get_lookup m key :
  Get m key =
    match db m !! NeedleIdToBytes key with
    | Some data =>
        if (length data =? OffsetSize + SizeSize)%nat
        then Some (mkNeedleValue key (BytesToOffset (take OffsetSize data))
                     (BytesToUint32 (take SizeSize (drop OffsetSize data))))
        else None
    | None => None
    end.
Proof.
  unfold Get, leveldb.Get. destruct (db m !! NeedleIdToBytes key) as [data|]; [|done].
  simpl. by destruct (length data =? _)%nat.
Qed.

Lemma Get_written m key offset size :
  db m !! NeedleIdToBytes key = Some (OffsetToBytes offset ++ Uint32toBytes size) ->
  Get m key = Some (mkNeedleValue key (wrap 32 offset) (wrap 32 size)).
Proof.
  intros Hd. rewrite Get_lookup. rewrite Hd.
  rewrite length_app. unfold OffsetToBytes, Uint32toBytes. rewrite !be_bytes_length.
  rewrite Nat.eqb_refl.
  rewrite take_app_length', drop_app_length' by (symmetry; apply be_bytes_length).
  rewrite take_ge by (by rewrite be_bytes_length).
  unfold BytesToOffset, BytesToUint32. by rewrite !be_value_be_bytes.
Qed.

Lemma Get_absent m key : db m !! NeedleIdToBytes key = None -> Get m key = None.
Proof. intros H. by rewrite Get_lookup, H. Qed.

Lemma Walk_replay es d :
  WalkIndexFile es replayRecord d = (replaySpec es d, None).
Proof.
  revert d. induction es as [|e es IH]; intros d; [done|].
  cbn [WalkIndexFile replaySpec]. unfold replayRecord.
  rewrite levelDbWrite_insert. unfold levelDbDelete, leveldb.Delete. cbn [fst].
  destruct (IsZero (eOffset e)), (bool_decide (eSize e = TombstoneFileSize));
    cbn [negb andb orb]; apply IH.
Qed.

Lemma replaySpec_app es1 es2 d :
  replaySpec (es1 ++ es2) d = replaySpec es2 (replaySpec es1 d).
Proof. revert d. induction es1 as [|e es1 IH]; intros d; [done|]. simpl. apply IH. Qed.

(** For a key the log mentions, the replayed store does not depend on the
    store the replay started from. *)
Lemma replaySpec_agree es d1 d2 (kb : list Z) :
  kb ∈ (fun e => NeedleIdToBytes (eKey e)) <$> es \/ d1 !! kb = d2 !! kb ->
  replaySpec es d1 !! kb = replaySpec es d2 !! kb.
Proof.
  revert d1 d2. induction es as [|e es IH]; intros d1 d2 H.
  - destruct H as [H|H]; [by apply elem_of_nil in H | done].
  - cbn [replaySpec]. apply IH.
    destruct (decide (NeedleIdToBytes (eKey e) = kb)) as [<-|Hne].
    + right. destruct (_ || _); by rewrite ?lookup_delete_eq, ?lookup_insert_eq.
    + destruct H as [H|H].
      * rewrite fmap_cons in H. apply elem_of_cons in H as [->|H]; [done | by left].
      * right. destruct (_ || _); by rewrite ?lookup_delete_ne, ?lookup_insert_ne.
Qed.

Lemma Get_rebuilt_from_log_alone m es d1 d2 key :
  key ∈ eKey <$> es ->
  Get (withDb m (replaySpec es d1)) key = Get (withDb m (replaySpec es d2)) key.
Proof.
  intros Hkey. rewrite !Get_lookup. cbn [db withDb].
  rewrite (replaySpec_agree es d1 d2); [done|]. left.
  apply list_elem_of_fmap in Hkey as (e & -> & He).
  apply list_elem_of_fmap. by exists e.
Qed.

Lemma replaySpec_untouched es d (kb : list Z) :
  kb ∉ (fun e => NeedleIdToBytes (eKey e)) <$> es ->
  replaySpec es d !! kb = d !! kb.
Proof.
  revert d. induction es as [|e es IH]; intros d Hnot; [done|].
  rewrite fmap_cons, not_elem_of_cons in Hnot. destruct Hnot as [Hne Hnot].
  cbn [replaySpec]. rewrite IH by done.
  destruct (_ || _); by rewrite ?lookup_delete_ne, ?lookup_insert_ne.
Qed.

Lemma NeedleIdToBytes_wrap k1 k2 :
  NeedleIdToBytes k1 = NeedleIdToBytes k2 -> wrap 64 k1 = wrap 64 k2.
Proof.
  unfold NeedleIdToBytes, wrap. intros Heq.
  apply (f_equal be_value) in Heq. by rewrite !be_value_be_bytes in Heq.
Qed.

(** A key the log never mentions is answered as the old store answered
    it. *)
Lemma Get_not_in_log m es d key :
  (forall e, e ∈ es -> wrap 64 (eKey e) <> wrap 64 key) ->
  Get (withDb m (replaySpec es d)) key = Get (withDb m d) key.
Proof.
  intros Hnot. rewrite !Get_lookup. cbn [db withDb].
  rewrite replaySpec_untouched; [done|].
  intros (e & Heq & He)%list_elem_of_fmap.
  by apply (Hnot e He), NeedleIdToBytes_wrap.
Qed.

(** When the old store holds only keys of the log, nothing of it is left. *)
Lemma replaySpec_from_log_alone es d :
  (forall kb, is_Some (d !! kb) -> kb ∈ (fun e => NeedleIdToBytes (eKey e)) <$> es) ->
  replaySpec es d = replaySpec es ∅.
Proof.
  intros Hkeys. apply map_eq. intros kb. apply replaySpec_agree.
  destruct (d !! kb) as [v|] eqn:E; [left; apply Hkeys; by rewrite E | by right].
Qed.

Lemma generateLevelDbFile_replay dir d f :
  leveldb.OpenFile dir = inl d ->
  generateLevelDbFile dir f = (leveldb.Present (replaySpec (entries f) d), None).
Proof. intros H. unfold generateLevelDbFile. by rewrite H, Walk_replay. Qed.

Lemma appendToIndexFile_fails f key offset size aerr :
  writeFault f = Some aerr <-> snd (appendToIndexFile f key offset size) = Some aerr.
Proof. unfold appendToIndexFile. destruct (writeFault f); simpl; naive_solver. Qed.

(** [Put], one effect after the other. *)
Lemma Put_run key offset size m :
  Put key offset size m =
    let oldSize := match Get m key with Some n => Size n | None => 0 end in
    let mm := logPut (mapMetric_ m) key oldSize size in
    let e := mkIdxEntry key offset size in
    match writeFault (indexFile m) with
    | Some aerr =>
        ([EvMetric; EvIndexAppend e false],
         mkLevelDbNeedleMap (indexFile m) mm (dbFileName m) (db m),
         Some ("cannot write to indexfile " +:+ Name (indexFile m) +:+ ": " +:+ aerr))
    | None =>
        ([EvMetric; EvIndexAppend e true; EvDbPut (NeedleIdToBytes key)],
         mkLevelDbNeedleMap
           (mkIndexFile (Name (indexFile m)) (entries (indexFile m) ++ [e]) None)
           mm (dbFileName m)
           (<[NeedleIdToBytes key := OffsetToBytes offset ++ Uint32toBytes size]> (db m)),
         None)
    end.
Proof.
  unfold Put, bind, mGet, m_logPut, m_appendToIndexFile, m_levelDbWrite,
    indexFileName, ret, appendToIndexFile, withDb.
  cbn [indexFile mapMetric_ dbFileName db].
  destruct (writeFault (indexFile m)) as [aerr|]; cbn [indexFile Name]; [done|].
  by rewrite levelDbWrite_insert.
Qed.

Lemma Delete_run key offset m :
  Delete key offset m =
    let e := mkIdxEntry key offset TombstoneFileSize in
    let '(t0, mm) :=
      match Get m key with
      | Some n => ([EvMetric], logDelete (mapMetric_ m) (Size n))
      | None => ([], mapMetric_ m)
      end in
    match writeFault (indexFile m) with
    | Some aerr =>
        (t0 ++ [EvIndexAppend e false],
         mkLevelDbNeedleMap (indexFile m) mm (dbFileName m) (db m),
         Some aerr)
    | None =>
        (t0 ++ [EvIndexAppend e true; EvDbDelete (NeedleIdToBytes key)],
         mkLevelDbNeedleMap
           (mkIndexFile (Name (indexFile m)) (entries (indexFile m) ++ [e]) None)
           mm (dbFileName m) (delete (NeedleIdToBytes key) (db m)),
         None)
    end.
Proof.
  unfold Delete, bind, mGet, m_logDelete, m_appendToIndexFile, m_levelDbDelete,
    ret, appendToIndexFile, withDb, levelDbDelete, leveldb.Delete.
  destruct (Get m key) as [n|]; cbn [indexFile mapMetric_ dbFileName db];
    destruct (writeFault (indexFile m)) as [aerr|]; try done; by destruct m.
Qed.

Lemma wrap_succ_ne x : is_uint 64 x -> wrap 64 (x + 1) <> x.
Proof.
  unfold is_uint, wrap. intros Hx.
  destruct (decide (x + 1 < 2 ^ 64)) as [Hlt|Hge].
  - rewrite Z.mod_small; lia.
  - assert (x = 2 ^ 64 - 1) as -> by lia. by vm_compute.
Qed.

Lemma logPut_changes mm key oldSize newSize :
  is_uint 64 (FileCounter mm) -> logPut mm key oldSize newSize <> mm.
Proof.
  intros Hx Heq. apply (wrap_succ_ne _ Hx).
  rewrite <- Heq at 2. unfold logPut. by destruct (0 <? oldSize).
Qed.

Lemma logDelete_changes mm n :
  is_uint 64 (DeletionCounter mm) -> logDelete mm n <> mm.
Proof.
  intros Hx Heq. apply (wrap_succ_ne _ Hx). by rewrite <- Heq at 2.
Qed.





Lemma NeedleIdToBytes_inj k1 k2 :
  is_uint 64 k1 -> is_uint 64 k2 ->
  NeedleIdToBytes k1 = NeedleIdToBytes k2 -> k1 = k2.
Proof.
  unfold is_uint, NeedleIdToBytes. intros H1 H2 Heq.
  apply (f_equal be_value) in Heq. rewrite !be_value_be_bytes in Heq.
  change (8 * Z.of_nat NeedleIdSize) with 64 in Heq.
  by rewrite !Z.mod_small in Heq.
Qed.




End NeedleIndex.

(** ** Claims about the needle index *)
Section NeedleIndexClaims.

Import types storage fixtures.

(** C1.  [Put] appends the entry to the index log before it updates the
    lookup store: a successful run performs, in this order, the metric
    update, the append and the store write; when the append fails, the run
    stops after the append attempt, [Put] returns an error naming the index
    file, and the lookup store is the one it started with. *)
Theorem Put_appends_before_store_update (m : LevelDbNeedleMap) (key offset size : Z) :
  let '(trace, m', err) := Put key offset size m in
  let e := mkIdxEntry key offset size in
  match snd (appendToIndexFile (indexFile m) key offset size) with
  | None =>
      trace = [EvMetric; EvIndexAppend e true; EvDbPut (NeedleIdToBytes key)]
      /\ entries (indexFile m') = entries (indexFile m) ++ [e]
      /\ err = None
  | Some aerr =>
      trace = [EvMetric; EvIndexAppend e false]
      /\ err = Some ("cannot write to indexfile " +:+ Name (indexFile m) +:+ ": " +:+ aerr)
      /\ db m' = db m
  end.
Proof.
  rewrite Put_run. unfold appendToIndexFile.
  destruct (writeFault (indexFile m)) as [aerr|]; cbn; done.
Qed.

(** C2.  After [Put(k, o, s)] followed by a [Delete(k, o)] that returned nil,
    [Get(k)] finds nothing, and so does a store rebuilt from the index log
    (over whatever the store directory held); for the log Put(42,100,50),
    Put(43,200,30), Delete(42,100) the rebuilt store has no entry for 42 and
    gives (200, 30) for 43. *)
Theorem tombstone_precedence (m : LevelDbNeedleMap) (key offset size : Z)
    (trace : list Event) (m2 : LevelDbNeedleMap)
    (dir : leveldb.Dir) (d0 : gmap (list Z) (list Z)) :
  Delete key offset (Put key offset size m).1.2 = (trace, m2, None) ->
  leveldb.OpenFile dir = inl d0 ->
  Get m2 key = None
  /\ (exists d', generateLevelDbFile dir (indexFile m2) = (leveldb.Present d', None)
                 /\ Get (withDb m2 d') key = None)
  /\ (exists d', generateLevelDbFile dir (mkIndexFile (Name (indexFile m)) scenarioLog None)
                   = (leveldb.Present d', None)
                 /\ Get (withDb m d') 42 = None
                 /\ Get (withDb m d') 43 = Some (mkNeedleValue 43 200 30)).
Proof.
  intros Hdel Hopen. rewrite Delete_run in Hdel.
  set (m1 := (Put key offset size m).1.2) in *.
  destruct (match Get m1 key with
            | Some n => ([EvMetric], logDelete (mapMetric_ m1) (Size n))
            | None => ([], mapMetric_ m1) end) as [t0 mm].
  cbn zeta in Hdel.
  destruct (writeFault (indexFile m1)) as [aerr|]; [discriminate|].
  injection Hdel as _ <-.
  split; [|split].
  - apply Get_absent. cbn. apply lookup_delete_eq.
  - eexists. split; [by apply generateLevelDbFile_replay|].
    apply Get_absent. cbn [db withDb indexFile entries].
    rewrite replaySpec_app. cbn [replaySpec].
    rewrite bool_decide_eq_true_2 by done. apply lookup_delete_eq.
  - eexists. split; [by apply generateLevelDbFile_replay|].
    cbn [entries scenarioLog replaySpec eKey eOffset eSize].
    split.
    + apply Get_absent. cbn [db withDb]. apply lookup_delete_eq.
    + rewrite (Get_written _ 43 200 30); [done|].
      cbn [db withDb].
      rewrite bool_decide_eq_true_2 by done. cbn [orb].
      rewrite lookup_delete_ne by (by vm_compute).
      apply lookup_insert_eq.
Qed.

(** C3.  Opening a needle index trusts the persisted store only when the
    store's LOG file opens, both files can be stat-ed and the store's
    modification time is strictly after the index log's.  Otherwise the
    store handed to the new map (the one every [Get] reads) is what the
    directory held (nothing when it was missing) with every log record
    replayed over it in order by [replaySpec]: a tombstone or a zero offset
    deletes the key, any other record upserts it.  The directory is not
    emptied first: a key the log mentions is answered as by a replay into
    an empty store, a key the log never mentions is answered as the old
    store answered it, and the store is the one regenerated from the log
    alone when the old store held only keys of the log. *)
Theorem freshness_gate_and_replay
    (newMetric : IndexFile -> mapMetric + error) (disk : Disk) (name : string)
    (f : IndexFile) (d0 : gmap (list Z) (list Z)) (mm : mapMetric) :
  leveldb.OpenFile (dbDir disk) = inl d0 ->
  newMetric f = inl mm ->
  (isLevelDbFresh (dbLOG disk) (indexStat disk) = true
   <-> exists tdb tidx, dbLOG disk = Some (Some tdb) /\ indexStat disk = Some tidx
                        /\ tidx < tdb)
  /\ NewLevelDbNeedleMap newMetric disk name f =
       (let d := if isLevelDbFresh (dbLOG disk) (indexStat disk)
                 then d0 else replaySpec (entries f) d0 in
        (leveldb.Present d, inl (mkLevelDbNeedleMap f mm name d)))
  /\ (forall m key, key ∈ eKey <$> entries f ->
        Get (withDb m (replaySpec (entries f) d0)) key
        = Get (withDb m (replaySpec (entries f) ∅)) key)
  /\ (forall m key, (forall e, e ∈ entries f -> wrap 64 (eKey e) <> wrap 64 key) ->
        Get (withDb m (replaySpec (entries f) d0)) key = Get (withDb m d0) key)
  /\ ((forall kb, is_Some (d0 !! kb) ->
         kb ∈ (fun e => NeedleIdToBytes (eKey e)) <$> entries f) ->
      replaySpec (entries f) d0 = replaySpec (entries f) ∅).
Proof.
  intros Hopen Hmm.
  split; [|split; [|split; [intros; by apply Get_rebuilt_from_log_alone|
                            split; [intros; by apply Get_not_in_log|
                                    apply replaySpec_from_log_alone]]]].
  - unfold isLevelDbFresh.
    destruct (dbLOG disk) as [[tdb|]|], (indexStat disk) as [tidx|];
      try (split; [discriminate | intros (? & ? & ? & ? & _); discriminate]).
    rewrite bool_decide_eq_true. split.
    + intros H. by exists tdb, tidx.
    + intros (? & ? & [= ->] & [= ->] & H). done.
  - unfold NewLevelDbNeedleMap.
    destruct (isLevelDbFresh (dbLOG disk) (indexStat disk)); cbn [negb].
    + by rewrite Hopen, Hmm.
    + rewrite (generateLevelDbFile_replay _ _ _ Hopen). cbn. by rewrite Hmm.
Qed.


(** C10, as amended.  When the append fails, [Put] has already updated the
    metrics, and so has [Delete] when the key is in the lookup store (for a
    key that is not, [Delete] has no metric update to make): the operation
    returns the error, the metrics keep the update, and the index log and
    the lookup store are unchanged. *)
Theorem failed_append_keeps_metric_update (m : LevelDbNeedleMap)
    (key offset size : Z) (aerr : error) :
  writeFault (indexFile m) = Some aerr ->
  is_uint 64 (FileCounter (mapMetric_ m)) ->
  is_uint 64 (DeletionCounter (mapMetric_ m)) ->
  (let '(trace, m', err) := Put key offset size m in
   let oldSize := match Get m key with Some n => Size n | None => 0 end in
   trace = [EvMetric; EvIndexAppend (mkIdxEntry key offset size) false]
   /\ err = Some ("cannot write to indexfile " +:+ Name (indexFile m) +:+ ": " +:+ aerr)
   /\ mapMetric_ m' = logPut (mapMetric_ m) key oldSize size
   /\ mapMetric_ m' <> mapMetric_ m
   /\ indexFile m' = indexFile m /\ db m' = db m)
  /\
  (let '(trace, m', err) := Delete key offset m in
   err = Some aerr
   /\ indexFile m' = indexFile m /\ db m' = db m
   /\ match Get m key with
      | Some n =>
          trace = [EvMetric; EvIndexAppend (mkIdxEntry key offset TombstoneFileSize) false]
          /\ mapMetric_ m' = logDelete (mapMetric_ m) (Size n)
          /\ mapMetric_ m' <> mapMetric_ m
      | None =>
          trace = [EvIndexAppend (mkIdxEntry key offset TombstoneFileSize) false]
          /\ mapMetric_ m' = mapMetric_ m
      end).
Proof.
  intros Hfault HF HD. rewrite Put_run, Delete_run, Hfault. cbn zeta. split.
  - cbn. repeat split; try done. by apply logPut_changes.
  - destruct (Get m key) as [n|]; cbn; repeat split; try done.
    by apply logDelete_changes.
Qed.

End NeedleIndexClaims.

(** C10, as stated, fails for [Delete] of a key the store does not hold: on
    a full disk the call returns the error and the metrics are the ones it
    started with. *)
Lemma Delete_absent_key_metrics_unchanged :
  let '(_, m', err) := storage.Delete 7 0 fixtures.mFull in
  err = Some "no space left on device"
  /\ storage.mapMetric_ m' = storage.mapMetric_ fixtures.mFull.
Proof. vm_compute. done. Qed.

(** C3, as stated, fails when the stale store holds a key the log never
    mentions: the store is regenerated, and afterwards [Get] still serves
    key 99 from the old store, which a store regenerated from the log alone
    does not hold. *)
Lemma stale_key_survives_regeneration :
  let f := storage.mkIndexFile "1.idx" fixtures.scenarioLog None in
  storage.isLevelDbFresh (storage.dbLOG fixtures.staleDisk)
    (storage.indexStat fixtures.staleDisk) = false
  /\ exists m,
       storage.NewLevelDbNeedleMap fixtures.noMetric fixtures.staleDisk "1.ldb" f
       = (leveldb.Present (storage.db m), inl m)
       /\ storage.Get m 99 = Some (storage.mkNeedleValue 99 7 11)
       /\ storage.Get (storage.withDb m (storage.replaySpec (storage.entries f) ∅)) 99 = None
       /\ storage.db m <> storage.replaySpec (storage.entries f) ∅.
Proof.
  split; [done|].
  exists (storage.mkLevelDbNeedleMap (storage.mkIndexFile "1.idx" fixtures.scenarioLog None)
            (storage.mkMetric 0 0 0 0) "1.ldb"
            (storage.replaySpec fixtures.scenarioLog fixtures.staleDb)).
  split; [by vm_compute|]. split; [by vm_compute|]. split; [by vm_compute|].
  intros H. apply (f_equal (fun d => d !! types.NeedleIdToBytes 99)) in H.
  vm_compute in H. discriminate.
Qed.

(** ** The topology *)
Section TopologyFacts.

Import topology.

(** What [UnRegisterVolumeLayout] leaves of the volume's collection is
    decided by the one layout the volume belongs to. *)
Lemma UnRegisterVolumeLayout_collection (t : Topology) (v : VolumeInfo) (dn : DataNodeRef) :
  let vl := VolumeLayout.UnRegisterVolume
              (GetVolumeLayout t (Collection_ v) (ReplicaPlacement v) (Ttl v)).2 v dn in
  VolumeLayout.isEmpty vl = true <->
  FindCollection (UnRegisterVolumeLayout t v dn) (Collection_ v) = None.
Proof.
  unfold UnRegisterVolumeLayout, GetVolumeLayout, FindCollection.
  destruct (Collection.GetOrCreateVolumeLayout _ _ _) as [c' vl0]. cbn [snd].
  destruct (VolumeLayout.isEmpty _) eqn:E.
  - split; [intros _|done]. cbn. apply lookup_delete_eq.
  - split; [done|]. unfold storeLayout. cbn [collectionMap withCollections].
    rewrite lookup_insert_eq. cbn. by rewrite lookup_insert_eq.
Qed.

(** Other collections are not touched. *)
Lemma UnRegisterVolumeLayout_other (t : Topology) (v : VolumeInfo) (dn : DataNodeRef)
    (name : string) :
  name <> Collection_ v ->
  FindCollection (UnRegisterVolumeLayout t v dn) name = FindCollection t name.
Proof.
  intros Hne. unfold UnRegisterVolumeLayout, GetVolumeLayout, FindCollection.
  destruct (Collection.GetOrCreateVolumeLayout _ _ _) as [c' vl0].
  unfold storeLayout. cbn [collectionMap withCollections]. rewrite lookup_insert_eq.
  destruct (VolumeLayout.isEmpty _); cbn;
    rewrite ?lookup_delete_ne, !lookup_insert_ne by done; done.
Qed.

Lemma lookup_each_Some cs vid list :
  lookup_each cs vid = Some list ->
  exists c, c ∈ cs /\ Collection.Lookup c vid = Some list.
Proof.
  induction cs as [|c cs IH]; [done|]. cbn.
  destruct (Collection.Lookup c vid) as [l|] eqn:E.
  - intros [= ->]. exists c. split; [left|done].
  - intros (c' & ? & ?)%IH. exists c'. split; [by right|done].
Qed.

Lemma lookup_each_None cs vid :
  lookup_each cs vid = None <-> forall c, c ∈ cs -> Collection.Lookup c vid = None.
Proof.
  induction cs as [|c cs IH]; cbn.
  - split; [by intros _ c ?%elem_of_nil|done].
  - destruct (Collection.Lookup c vid) as [l|] eqn:E.
    + split; [done|]. intros H. specialize (H c (list_elem_of_here _ _)). congruence.
    + rewrite IH. split.
      * intros H c' [->|?]%elem_of_cons; auto.
      * intros H c' ?. apply H. by right.
Qed.

(** What [Lookup] computes, case by case. *)
Lemma Lookup_cases (t : Topology) (collection : string) (vid : Z) :
  Lookup t collection vid =
    let ec := match LookupEcShards t vid with
              | Some locations => flatten_shards (Locations locations)
              | None => None
              end in
    if bool_decide (collection = "") then
      match lookup_each (Items (collectionMap t)) vid with
      | Some list => Some list
      | None => ec
      end
    else
      match FindCollection t collection with
      | Some c => Collection.Lookup c vid
      | None => ec
      end.
Proof.
  unfold Lookup, FindCollection. case_bool_decide.
  - by destruct (lookup_each _ _).
  - by destruct (collectionMap t !! collection).
Qed.

End TopologyFacts.

Section TopologyClaims.

Import topology fixtures.

(** C4.  The code at the failing input: collection "pics" holds two
    layouts, one with volume 1 and one with volume 2, both on dn1.
    Unregistering volume 2 empties only its own layout, and yet the whole
    collection is removed: it is gone from [ListCollections] and volume 1
    can no longer be looked up. *)
Theorem UnRegister_removes_collection_with_live_layout :
  let t := UnRegisterVolumeLayout topo12 v2 "dn1" in
  ListCollections topo12 true false = ["pics"]
  /\ Lookup topo12 "pics" 1 = Some ["dn1"]
  /\ (c ← FindCollection topo12 "pics";
      vl ← Collection.storageType2VolumeLayout c !! (0, 0);
      Some (VolumeLayout.isEmpty vl)) = Some false
  /\ ListCollections t true false = []
  /\ FindCollection t "pics" = None
  /\ Lookup t "" 1 = None.
Proof. by vm_compute. Qed.

(** C5.  The code at the failing input: collection "pics" exists and holds
    volume 1 only; volume 7 is erasure-coded, with shards on dn2 and dn3.
    Asked for volume 7 by collection name, [Lookup] returns nil without
    consulting the shard map, although the collection part found nothing;
    asked without a name (or with a name no collection has) it returns the
    flattened shard locations. *)
Theorem Lookup_named_collection_skips_ec_shards :
  Collection.Lookup (default (Collection.New "" 0) (FindCollection topoEc "pics")) 7 = None
  /\ LookupEcShards topoEc 7 = Some (mkEcShardLocations "pics" [["dn2"]; []; ["dn3"]])
  /\ Lookup topoEc "pics" 7 = None
  /\ Lookup topoEc "" 7 = Some ["dn2"; "dn3"]
  /\ Lookup topoEc "music" 7 = Some ["dn2"; "dn3"].
Proof. by vm_compute. Qed.

(** C7.  Without an election mechanism [IsLeader] is false and [Leader]
    fails with "not ready"; with one, [IsLeader] is true exactly when the
    local state is leader, and [Leader] gives the group's leader, or, when
    the group reports none, this node's own name together with the "not
    initialized" error. *)
Theorem leadership_queries (t : Topology) :
  match RaftServer t with
  | None =>
      IsLeader t = false
      /\ Leader t = ("", Some "Raft Server not ready yet!")
  | Some rs =>
      (IsLeader t = true <-> raft.Server.State rs = raft.Leader)
      /\ (raft.Server.Leader rs = "" ->
          Leader t = (raft.Server.Name rs, Some "Raft Server not initialized!"))
      /\ (raft.Server.Leader rs <> "" -> Leader t = (raft.Server.Leader rs, None))
  end.
Proof.
  unfold IsLeader, Leader. destruct (RaftServer t) as [rs|]; [|done].
  split; [apply bool_decide_eq_true|].
  split; intros H; [by rewrite bool_decide_eq_true_2 | by rewrite bool_decide_eq_false_2].
Qed.

End TopologyClaims.

(** ** Registration and the replica lists *)
Section RegistrationFacts.

Import topology.

Lemma GetVolumeLayout_run (t : Topology) (name : string) (rp ttl : Z) :
  GetVolumeLayout t name rp ttl =
    let c := default (Collection.New name (volumeSizeLimit t)) (collectionMap t !! name) in
    let vl := default (VolumeLayout.New rp ttl (Collection.volumeSizeLimit c))
                      (Collection.storageType2VolumeLayout c !! (rp, ttl)) in
    (withCollections t
       (<[name := Collection.mk (Collection.Name c) (Collection.volumeSizeLimit c)
                    (<[(rp, ttl) := vl]> (Collection.storageType2VolumeLayout c))]>
          (collectionMap t)),
     vl).
Proof.
  unfold GetVolumeLayout, Collection.GetOrCreateVolumeLayout. cbn zeta.
  destruct (Collection.storageType2VolumeLayout _ !! (rp, ttl)) as [vl|] eqn:Hvl; [|done].
  cbn [default from_option Datatypes.id]. rewrite (insert_id _ _ _ Hvl).
  by destruct (default _ _).
Qed.

Lemma layoutFor_key (t : Topology) (v : VolumeInfo) :
  wellKept t ->
  (VolumeLayout.rp (layoutFor t v), VolumeLayout.ttl (layoutFor t v))
  = (ReplicaPlacement v, Ttl v)
  /\ map_Forall (fun _ l => NoDup l) (VolumeLayout.vid2location (layoutFor t v)).
Proof.
  intros Hwk. unfold layoutFor, collectionFor.
  destruct (collectionMap t !! Collection_ v) as [c|] eqn:Hc; cbn [default from_option Datatypes.id].
  - destruct (Collection.storageType2VolumeLayout c !! (ReplicaPlacement v, Ttl v))
      as [vl|] eqn:Hvl; cbn [default from_option Datatypes.id].
    + destruct (map_Forall_lookup_1 _ _ _ _ (map_Forall_lookup_1 _ _ _ _ Hwk Hc) Hvl)
        as [Hk Hnd]. split; [by rewrite Hk | done].
    + split; [done|]. apply map_Forall_empty.
  - cbn. rewrite lookup_empty. cbn. split; [done|]. apply map_Forall_empty.
Qed.

Lemma locationsOf_layoutFor (t : Topology) (v : VolumeInfo) :
  locationsOf t (Collection_ v) (ReplicaPlacement v) (Ttl v) (Id v)
  = default [] (VolumeLayout.vid2location (layoutFor t v) !! Id v).
Proof.
  unfold locationsOf, layoutFor, collectionFor, VolumeLayout.Lookup.
  destruct (collectionMap t !! Collection_ v) as [c|]; cbn [default from_option Datatypes.id].
  - by destruct (Collection.storageType2VolumeLayout c !! _).
  - cbn. by rewrite lookup_empty.
Qed.

Lemma RegisterVolumeLayout_run (t : Topology) (v : VolumeInfo) (dn : DataNodeRef) :
  wellKept t ->
  collectionMap (RegisterVolumeLayout t v dn)
  = withLayout t v (VolumeLayout.RegisterVolume (layoutFor t v) v dn).
Proof.
  intros Hwk. destruct (layoutFor_key t v Hwk) as [[= Hrp Httl] _].
  unfold RegisterVolumeLayout. rewrite GetVolumeLayout_run. cbv beta iota zeta.
  fold (collectionFor t v). fold (layoutFor t v).
  unfold storeLayout, withLayout. cbn [collectionMap withCollections].
  rewrite lookup_insert_eq. cbn [collectionMap withCollections].
  rewrite insert_insert_eq. unfold Collection.store.
  cbn [Collection.Name Collection.volumeSizeLimit Collection.storageType2VolumeLayout
       VolumeLayout.RegisterVolume VolumeLayout.rp VolumeLayout.ttl].
  by rewrite Hrp, Httl, insert_insert_eq.
Qed.

Lemma UnRegisterVolume_key (vl : VolumeLayout.t) (v : VolumeInfo) (dn : DataNodeRef) :
  VolumeLayout.rp (VolumeLayout.UnRegisterVolume vl v dn) = VolumeLayout.rp vl
  /\ VolumeLayout.ttl (VolumeLayout.UnRegisterVolume vl v dn) = VolumeLayout.ttl vl.
Proof.
  unfold VolumeLayout.UnRegisterVolume.
  destruct (VolumeLayout.vid2location vl !! Id v); [|done]. by case_bool_decide.
Qed.

Lemma UnRegisterVolumeLayout_run (t : Topology) (v : VolumeInfo) (dn : DataNodeRef) :
  wellKept t ->
  let vl' := VolumeLayout.UnRegisterVolume (layoutFor t v) v dn in
  collectionMap (UnRegisterVolumeLayout t v dn)
  = if VolumeLayout.isEmpty vl' then delete (Collection_ v) (collectionMap t)
    else withLayout t v vl'.
Proof.
  intros Hwk vl'. destruct (layoutFor_key t v Hwk) as [[= Hrp Httl] _].
  destruct (UnRegisterVolume_key (layoutFor t v) v dn) as [Hrp' Httl'].
  unfold UnRegisterVolumeLayout. rewrite GetVolumeLayout_run. cbv beta iota zeta.
  fold (collectionFor t v). fold (layoutFor t v). fold vl'.
  assert (Hstore : collectionMap (storeLayout
            (withCollections t
               (<[Collection_ v :=
                    Collection.mk (Collection.Name (collectionFor t v))
                      (Collection.volumeSizeLimit (collectionFor t v))
                      (<[(ReplicaPlacement v, Ttl v) := layoutFor t v]>
                         (Collection.storageType2VolumeLayout (collectionFor t v)))]>
                  (collectionMap t))) (Collection_ v) vl') = withLayout t v vl').
  { unfold storeLayout, withLayout. cbn [collectionMap withCollections].
    rewrite lookup_insert_eq. cbn [collectionMap withCollections].
    rewrite insert_insert_eq. unfold Collection.store.
    cbn [Collection.Name Collection.volumeSizeLimit Collection.storageType2VolumeLayout].
    fold vl' in Hrp', Httl'. by rewrite Hrp', Httl', Hrp, Httl, insert_insert_eq. }
  destruct (VolumeLayout.isEmpty vl'); [|done].
  unfold DeleteCollection. cbn [collectionMap withCollections]. rewrite Hstore.
  unfold withLayout. apply delete_insert_eq.
Qed.

(** What [locationsOf] reads after a layout of the volume's collection was
    replaced. *)
Lemma locationsOf_withLayout (t t' : Topology) (v : VolumeInfo) (vl' : VolumeLayout.t)
    (name : string) (rp ttl vid : Z) :
  collectionMap t' = withLayout t v vl' ->
  (forall vid', vid' <> Id v ->
     VolumeLayout.vid2location vl' !! vid' = VolumeLayout.vid2location (layoutFor t v) !! vid') ->
  locationsOf t' name rp ttl vid
  = if bool_decide (name = Collection_ v /\ rp = ReplicaPlacement v /\ ttl = Ttl v
                    /\ vid = Id v)
    then default [] (VolumeLayout.vid2location vl' !! Id v)
    else locationsOf t name rp ttl vid.
Proof.
  intros Hcm Hother. unfold locationsOf at 1. rewrite Hcm. unfold withLayout.
  destruct (decide (name = Collection_ v)) as [->|Hname].
  - rewrite lookup_insert_eq. cbn [Collection.storageType2VolumeLayout].
    destruct (decide ((rp, ttl) = (ReplicaPlacement v, Ttl v))) as [[= -> ->]|Hkey].
    + rewrite lookup_insert_eq. unfold VolumeLayout.Lookup.
      destruct (decide (vid = Id v)) as [->|Hvid].
      * by rewrite bool_decide_eq_true_2.
      * rewrite bool_decide_eq_false_2 by (intros (_ & _ & _ & ?); done).
        rewrite Hother by done.
        unfold locationsOf, layoutFor, collectionFor, VolumeLayout.Lookup.
        destruct (collectionMap t !! Collection_ v) as [c|]; cbn [default from_option Datatypes.id].
        -- by destruct (Collection.storageType2VolumeLayout c !! _).
        -- cbn. by rewrite lookup_empty.
    + rewrite lookup_insert_ne by done.
      rewrite bool_decide_eq_false_2 by (intros (_ & -> & -> & _); done).
      unfold locationsOf, collectionFor.
      destruct (collectionMap t !! Collection_ v) as [c|]; cbn [default from_option Datatypes.id]; [done|].
      cbn. by rewrite lookup_empty.
  - rewrite lookup_insert_ne by done.
    by rewrite bool_decide_eq_false_2 by (intros (? & _); done).
Qed.

Lemma wellKept_withLayout (t t' : Topology) (v : VolumeInfo) (vl' : VolumeLayout.t) :
  wellKept t ->
  collectionMap t' = withLayout t v vl' ->
  (VolumeLayout.rp vl', VolumeLayout.ttl vl') = (ReplicaPlacement v, Ttl v) ->
  map_Forall (fun _ l => NoDup l) (VolumeLayout.vid2location vl') ->
  wellKept t'.
Proof.
  intros Hwk Hcm Hkey Hnd. unfold wellKept. rewrite Hcm. unfold withLayout.
  apply map_Forall_insert_2; [|done].
  cbn [Collection.storageType2VolumeLayout].
  apply map_Forall_insert_2; [by rewrite Hkey|].
  unfold collectionFor. destruct (collectionMap t !! Collection_ v) as [c|] eqn:Hc; cbn [default from_option Datatypes.id].
  - exact (map_Forall_lookup_1 _ _ _ _ Hwk Hc).
  - apply map_Forall_empty.
Qed.

Lemma remove_first_subseteq (dn x : DataNodeRef) (l : list DataNodeRef) :
  x ∈ VolumeLayout.remove_first dn l -> x ∈ l.
Proof.
  induction l as [|y l IH]; [done|]. cbn. case_bool_decide.
  - by right.
  - intros [->|?]%elem_of_cons; [left | right; auto].
Qed.

Lemma remove_first_NoDup (dn : DataNodeRef) (l : list DataNodeRef) :
  NoDup l -> NoDup (VolumeLayout.remove_first dn l) /\ dn ∉ VolumeLayout.remove_first dn l.
Proof.
  induction 1 as [|y l Hy Hl IH]; [split; [constructor | by intros ?%elem_of_nil]|].
  cbn. case_bool_decide as Hdn.
  - subst. done.
  - destruct IH as [IH1 IH2]. split.
    + constructor; [|done]. by intros ?%remove_first_subseteq.
    + intros [->|?]%elem_of_cons; done.
Qed.

(** Registering: the node is added to the volume's replica list, once, and
    nothing else changes. *)
Lemma RegisterVolumeLayout_holds (t : Topology) (v : VolumeInfo) (dn : DataNodeRef) :
  wellKept t ->
  wellKept (RegisterVolumeLayout t v dn)
  /\ holds (RegisterVolumeLayout t v dn) v dn
  /\ (forall v' dn', holds t v' dn' -> holds (RegisterVolumeLayout t v dn) v' dn').
Proof.
  intros Hwk. pose proof (RegisterVolumeLayout_run t v dn Hwk) as Hrun.
  destruct (layoutFor_key t v Hwk) as [Hkey Hnd].
  set (old := default [] (VolumeLayout.vid2location (layoutFor t v) !! Id v)).
  assert (Hloc : forall name rp ttl vid,
    locationsOf (RegisterVolumeLayout t v dn) name rp ttl vid
    = if bool_decide (name = Collection_ v /\ rp = ReplicaPlacement v /\ ttl = Ttl v
                      /\ vid = Id v)
      then (if bool_decide (dn ∈ old) then old else old ++ [dn])
      else locationsOf t name rp ttl vid).
  { intros. rewrite (locationsOf_withLayout t _ v _ _ _ _ _ Hrun).
    - cbn [VolumeLayout.RegisterVolume VolumeLayout.vid2location].
      by rewrite lookup_insert_eq.
    - intros vid' Hne. cbn [VolumeLayout.RegisterVolume VolumeLayout.vid2location].
      by rewrite lookup_insert_ne. }
  split; [|split].
  - apply (wellKept_withLayout t _ v _ Hwk Hrun); [done|].
    cbn [VolumeLayout.RegisterVolume VolumeLayout.vid2location].
    apply map_Forall_insert_2; [|done]. fold old.
    assert (Hold : NoDup old).
    { unfold old. destruct (VolumeLayout.vid2location (layoutFor t v) !! Id v) as [l|] eqn:E;
        [exact (map_Forall_lookup_1 _ _ _ _ Hnd E) | constructor]. }
    case_bool_decide as Hin; [done|].
    apply NoDup_app. split; [done|]. split; [|apply NoDup_singleton].
    intros x Hx ->%list_elem_of_singleton. done.
  - unfold holds. rewrite Hloc, bool_decide_eq_true_2 by done.
    case_bool_decide; [done|]. apply elem_of_app. right. by left.
  - intros v' dn'. unfold holds. rewrite Hloc.
    destruct (decide (Collection_ v' = Collection_ v /\ ReplicaPlacement v' = ReplicaPlacement v
                      /\ Ttl v' = Ttl v /\ Id v' = Id v)) as [Hk|Hk];
      [rewrite bool_decide_eq_true_2 by done | by rewrite bool_decide_eq_false_2 by done].
    destruct Hk as (-> & -> & -> & ->). rewrite locationsOf_layoutFor. fold old.
    intros Hin. case_bool_decide; [done|]. apply elem_of_app. by left.
Qed.

(** Unregistering: the node is taken off the volume's replica list, and no
    replica list gains a node. *)
Lemma UnRegisterVolumeLayout_holds (t : Topology) (v : VolumeInfo) (dn : DataNodeRef) :
  wellKept t ->
  wellKept (UnRegisterVolumeLayout t v dn)
  /\ ~ holds (UnRegisterVolumeLayout t v dn) v dn
  /\ (forall v' dn', holds (UnRegisterVolumeLayout t v dn) v' dn' -> holds t v' dn').
Proof.
  intros Hwk. pose proof (UnRegisterVolumeLayout_run t v dn Hwk) as Hrun.
  cbv zeta in Hrun.
  destruct (layoutFor_key t v Hwk) as [Hkey Hnd].
  destruct (UnRegisterVolume_key (layoutFor t v) v dn) as [Hrp' Httl'].
  set (vl' := VolumeLayout.UnRegisterVolume (layoutFor t v) v dn) in *.
  set (old := default [] (VolumeLayout.vid2location (layoutFor t v) !! Id v)).
  assert (Hother : forall vid', vid' <> Id v ->
    VolumeLayout.vid2location vl' !! vid' = VolumeLayout.vid2location (layoutFor t v) !! vid').
  { intros vid' Hne. unfold vl', VolumeLayout.UnRegisterVolume.
    destruct (VolumeLayout.vid2location (layoutFor t v) !! Id v); [|done].
    case_bool_decide; [|done]. cbn [VolumeLayout.vid2location].
    case_bool_decide; by rewrite ?lookup_delete_ne, ?lookup_insert_ne. }
  assert (Hmine : default [] (VolumeLayout.vid2location vl' !! Id v)
                  = VolumeLayout.remove_first dn old).
  { unfold vl', old, VolumeLayout.UnRegisterVolume.
    destruct (VolumeLayout.vid2location (layoutFor t v) !! Id v) as [l|] eqn:E; cbn [default from_option Datatypes.id].
    - case_bool_decide as Hin.
      + cbn [VolumeLayout.vid2location]. case_bool_decide as Hlen.
        * rewrite lookup_delete_eq. cbn.
          by destruct (VolumeLayout.remove_first dn l).
        * by rewrite lookup_insert_eq.
      + rewrite E. cbn. clear -Hin. induction l as [|y l IH]; [done|].
        cbn. rewrite bool_decide_eq_false_2 by (intros ->; apply Hin; left).
        rewrite <- IH; [done|]. intros ?. apply Hin. by right.
    - by rewrite E. }
  assert (Hnd' : map_Forall (fun _ l => NoDup l) (VolumeLayout.vid2location vl')).
  { intros vid l Hl. destruct (decide (vid = Id v)) as [->|Hne].
    - assert (l = VolumeLayout.remove_first dn old) as -> by (rewrite <- Hmine, Hl; done).
      apply remove_first_NoDup. unfold old.
      destruct (VolumeLayout.vid2location (layoutFor t v) !! Id v) as [l0|] eqn:E;
        [exact (map_Forall_lookup_1 _ _ _ _ Hnd E) | constructor].
    - rewrite Hother in Hl by done. exact (map_Forall_lookup_1 _ _ _ _ Hnd Hl). }
  assert (Hold : NoDup old).
  { unfold old. destruct (VolumeLayout.vid2location (layoutFor t v) !! Id v) as [l|] eqn:E;
      [exact (map_Forall_lookup_1 _ _ _ _ Hnd E) | constructor]. }
  destruct (VolumeLayout.isEmpty vl') eqn:Hempty.
  - assert (Hloc : forall name rp ttl vid x,
      x ∈ locationsOf (UnRegisterVolumeLayout t v dn) name rp ttl vid ->
      name <> Collection_ v /\ x ∈ locationsOf t name rp ttl vid).
    { intros name rp ttl vid x. unfold locationsOf at 1. rewrite Hrun.
      destruct (decide (name = Collection_ v)) as [->|Hne].
      - rewrite lookup_delete_eq. by intros ?%elem_of_nil.
      - rewrite lookup_delete_ne by done. done. }
    split; [|split].
    + unfold wellKept. rewrite Hrun. by apply map_Forall_delete.
    + intros H. by apply Hloc in H as [? _].
    + intros v' dn' H. by apply Hloc in H as [_ ?].
  - assert (Hloc : forall name rp ttl vid,
      locationsOf (UnRegisterVolumeLayout t v dn) name rp ttl vid
      = if bool_decide (name = Collection_ v /\ rp = ReplicaPlacement v /\ ttl = Ttl v
                        /\ vid = Id v)
        then VolumeLayout.remove_first dn old
        else locationsOf t name rp ttl vid).
    { intros. rewrite (locationsOf_withLayout t _ v vl' _ _ _ _ Hrun Hother).
      by rewrite Hmine. }
    split; [|split].
    + apply (wellKept_withLayout t _ v vl' Hwk Hrun); [|done].
      by rewrite Hrp', Httl'.
    + unfold holds. rewrite Hloc, bool_decide_eq_true_2 by done.
      by apply remove_first_NoDup.
    + intros v' dn'. unfold holds. rewrite Hloc. case_bool_decide as Hk; [|done].
      destruct Hk as (-> & -> & -> & ->). rewrite locationsOf_layoutFor. fold old.
      apply remove_first_subseteq.
Qed.

(** Unregistering in another collection changes nothing for the volume. *)
Lemma UnRegisterVolumeLayout_holds_other (t : Topology) (v v' : VolumeInfo)
    (dn dn' : DataNodeRef) :
  Collection_ v <> Collection_ v' ->
  holds (UnRegisterVolumeLayout t v dn) v' dn' <-> holds t v' dn'.
Proof.
  intros Hne. unfold holds, locationsOf.
  pose proof (UnRegisterVolumeLayout_other t v dn (Collection_ v')) as H.
  unfold FindCollection in H. by rewrite H.
Qed.

Lemma registrations_applied (vs : list VolumeInfo) (dn : DataNodeRef) (t : Topology) :
  wellKept t ->
  let t' := fold_left (fun t v => RegisterVolumeLayout t v dn) vs t in
  wellKept t'
  /\ (forall v, v ∈ vs -> holds t' v dn)
  /\ (forall v' dn', holds t v' dn' -> holds t' v' dn').
Proof.
  revert t. induction vs as [|v vs IH]; intros t Hwk; cbn [fold_left].
  - split; [done|]. split; [by intros v ?%elem_of_nil | done].
  - destruct (RegisterVolumeLayout_holds t v dn Hwk) as (Hwk1 & Hv & Hkeep).
    destruct (IH _ Hwk1) as (Hwk' & Hall & Hkeep'). cbv zeta in *.
    split; [done|]. split.
    + intros v0 [->|Hin]%elem_of_cons; [by apply Hkeep' | by apply Hall].
    + intros v' dn' H. by apply Hkeep', Hkeep.
Qed.

Lemma unregistrations_applied (vs : list VolumeInfo) (dn : DataNodeRef) (t : Topology) :
  wellKept t ->
  let t' := fold_left (fun t v => UnRegisterVolumeLayout t v dn) vs t in
  wellKept t'
  /\ (forall v, v ∈ vs -> ~ holds t' v dn)
  /\ (forall v' dn', holds t' v' dn' -> holds t v' dn')
  /\ (forall v' dn', (forall v, v ∈ vs -> Collection_ v <> Collection_ v') ->
                     holds t v' dn' -> holds t' v' dn').
Proof.
  revert t. induction vs as [|v vs IH]; intros t Hwk; cbn [fold_left].
  - split; [done|]. split; [by intros v ?%elem_of_nil | done].
  - destruct (UnRegisterVolumeLayout_holds t v dn Hwk) as (Hwk1 & Hv & Hsub).
    destruct (IH _ Hwk1) as (Hwk' & Hall & Hsub' & Hkeep'). cbv zeta in *.
    split; [done|]. split; [|split].
    + intros v0 [->|Hin]%elem_of_cons; [|by apply Hall].
      intros H. by apply Hv, Hsub'.
    + intros v' dn' H. by apply Hsub, Hsub'.
    + intros v' dn' Hcol H. apply Hkeep'.
      * intros v0 Hin. apply Hcol. by right.
      * apply UnRegisterVolumeLayout_holds_other; [|done]. apply Hcol. by left.
Qed.

End RegistrationFacts.

Section RegistrationClaims.

Import topology.

Context {VolumeInformationMessage VolumeShortInformationMessage : Type}.
Variable NewVolumeInfo : VolumeInformationMessage -> VolumeInfo * option error.
Variable NewVolumeInfoFromShort : VolumeShortInformationMessage -> VolumeInfo * option error.
Variable show : VolumeShortInformationMessage -> string.
Variable UpdateVolumes :
  DataNode -> list VolumeInfo -> DataNode * list VolumeInfo * list VolumeInfo.
Variable DeltaUpdateVolumes :
  DataNode -> list VolumeInfo -> list VolumeInfo -> DataNode.

Lemma convert_skips (volumes : list VolumeInformationMessage) :
  convert _ NewVolumeInfo volumes
  = ((fun v => (NewVolumeInfo v).1) <$> filter (converts NewVolumeInfo) volumes,
     omap (warning _ NewVolumeInfo) volumes).
Proof.
  induction volumes as [|v volumes IH]; [done|].
  cbn [convert omap list_omap]. rewrite IH, filter_cons.
  fold (omap (warning _ NewVolumeInfo) volumes).
  assert (Hw : warning _ NewVolumeInfo v
    = (fun err => "Fail to convert joined volume information: " +:+ err)
        <$> (NewVolumeInfo v).2) by done.
  rewrite Hw. clear Hw.
  case_decide as Hv; unfold converts in Hv; rewrite ?fmap_cons;
    destruct (NewVolumeInfo v) as [vi [err|]]; cbn in *; first [done | congruence].
Qed.

Lemma convertShort_skips (volumes : list VolumeShortInformationMessage) :
  convertShort _ NewVolumeInfoFromShort show volumes
  = ((fun v => (NewVolumeInfoFromShort v).1)
       <$> filter (converts NewVolumeInfoFromShort) volumes,
     omap (warningShort _ NewVolumeInfoFromShort show) volumes).
Proof.
  induction volumes as [|v volumes IH]; [done|].
  cbn [convertShort omap list_omap]. rewrite IH, filter_cons.
  fold (omap (warningShort _ NewVolumeInfoFromShort show) volumes).
  assert (Hw : warningShort _ NewVolumeInfoFromShort show v
    = (fun err => "NewVolumeInfoFromShort " +:+ show v +:+ ": " +:+ err)
        <$> (NewVolumeInfoFromShort v).2) by done.
  rewrite Hw. clear Hw.
  case_decide as Hv; unfold converts in Hv; rewrite ?fmap_cons;
    destruct (NewVolumeInfoFromShort v) as [vi [err|]]; cbn in *; first [done | congruence].
Qed.

Lemma no_warning_when_converts {M : Type} (conv : M -> VolumeInfo * option error)
    (warn : M -> option string) (volumes : list M) :
  (forall v, converts conv v -> warn v = None) ->
  omap warn (filter (converts conv) volumes) = [].
Proof.
  intros Hwarn. induction volumes as [|v volumes IH]; [done|].
  rewrite filter_cons. case_decide as Hv; [|done].
  cbn [omap list_omap]. rewrite (Hwarn v Hv). apply IH.
Qed.

Lemma filter_idemp {A} (P : A -> Prop) `{!forall x, Decision (P x)} (l : list A) :
  filter P (filter P l) = filter P l.
Proof.
  induction l as [|x l IH]; [done|].
  rewrite filter_cons. case_decide; [|done].
  rewrite filter_cons. case_decide; [|done]. by rewrite IH.
Qed.

(** C8.  In both registration paths a record whose conversion fails is
    skipped with one warning and the rest of the batch is processed.  The
    data node is updated with the conversions of the well-formed records in
    their order, and the topology that results is the one
    [RegisterVolumeLayout] and then [UnRegisterVolumeLayout] give when
    called, one after the other, for exactly those; the outcome is that of
    the batch with the malformed records left out, which runs without a
    warning.  On a topology the operations have kept in order, every
    unregistration shows afterwards (the node is off the volume's replica
    list) and so does every registration whose collection no
    unregistration of the batch touches (the node is on the list). *)
Theorem sync_skips_malformed_records (t : Topology) (dn : DataNode)
    (volumes : list VolumeInformationMessage)
    (newVolumes deletedVolumes : list VolumeShortInformationMessage) :
  let full := SyncDataNodeRegistration _ NewVolumeInfo UpdateVolumes in
  let incr := IncrementalSyncDataNodeRegistration _ NewVolumeInfoFromShort show
                DeltaUpdateVolumes in
  let good := filter (converts NewVolumeInfo) volumes in
  let goodNew := filter (converts NewVolumeInfoFromShort) newVolumes in
  let goodDeleted := filter (converts NewVolumeInfoFromShort) deletedVolumes in
  let infos := (fun v => (NewVolumeInfo v).1) <$> good in
  let newVis := (fun v => (NewVolumeInfoFromShort v).1) <$> goodNew in
  let oldVis := (fun v => (NewVolumeInfoFromShort v).1) <$> goodDeleted in
  let logged := omap (warning _ NewVolumeInfo) volumes in
  let loggedShort :=
    omap (warningShort _ NewVolumeInfoFromShort show) newVolumes
    ++ omap (warningShort _ NewVolumeInfoFromShort show) deletedVolumes in
  (let '(dn', new, deleted) := UpdateVolumes dn infos in
   full t volumes dn =
     mkSyncResult
       (fold_left (fun t v => UnRegisterVolumeLayout t v (dnId dn')) deleted
          (fold_left (fun t v => RegisterVolumeLayout t v (dnId dn')) new t))
       dn' new deleted logged)
  /\ (let r := full t good dn in
      warnings r = []
      /\ full t volumes dn =
           mkSyncResult (topo r) (node r) (topology.newVolumes r)
                        (topology.deletedVolumes r) logged)
  /\ (let dn' := DeltaUpdateVolumes dn newVis oldVis in
      incr t newVolumes deletedVolumes dn =
        mkSyncResult
          (fold_left (fun t v => UnRegisterVolumeLayout t v (dnId dn')) oldVis
             (fold_left (fun t v => RegisterVolumeLayout t v (dnId dn')) newVis t))
          dn' newVis oldVis loggedShort)
  /\ (let r := incr t goodNew goodDeleted dn in
      warnings r = []
      /\ incr t newVolumes deletedVolumes dn =
           mkSyncResult (topo r) (node r) (topology.newVolumes r)
                        (topology.deletedVolumes r) loggedShort)
  /\ (wellKept t ->
      let r := full t volumes dn in
      wellKept (topo r)
      /\ (forall v, v ∈ topology.newVolumes r ->
            (forall d, d ∈ topology.deletedVolumes r -> Collection_ d <> Collection_ v) ->
            holds (topo r) v (dnId (node r)))
      /\ (forall d, d ∈ topology.deletedVolumes r -> ~ holds (topo r) d (dnId (node r))))
  /\ (wellKept t ->
      let r := incr t newVolumes deletedVolumes dn in
      let vi m := (NewVolumeInfoFromShort m).1 in
      wellKept (topo r)
      /\ (forall m, m ∈ newVolumes -> converts NewVolumeInfoFromShort m ->
            (forall d, d ∈ deletedVolumes -> converts NewVolumeInfoFromShort d ->
                       Collection_ (vi d) <> Collection_ (vi m)) ->
            holds (topo r) (vi m) (dnId (node r)))
      /\ (forall d, d ∈ deletedVolumes -> converts NewVolumeInfoFromShort d ->
            ~ holds (topo r) (vi d) (dnId (node r)))).
Proof.
  cbn zeta. unfold SyncDataNodeRegistration, IncrementalSyncDataNodeRegistration.
  rewrite !convert_skips, !convertShort_skips, !filter_idemp.
  rewrite (no_warning_when_converts NewVolumeInfo), !(no_warning_when_converts NewVolumeInfoFromShort);
    try (intros v Hv; unfold converts in Hv; unfold warning, warningShort; by rewrite Hv).
  unfold registerAll, unregisterAll.
  destruct (UpdateVolumes dn _) as [[dn' new] deleted].
  cbn [topo node topology.newVolumes topology.deletedVolumes].
  do 4 (split; [done|]). split.
  - intros Hwk.
    destruct (registrations_applied new (dnId dn') t Hwk) as (Hwk1 & Hreg & _).
    destruct (unregistrations_applied deleted (dnId dn') _ Hwk1)
      as (Hwk2 & Hunreg & _ & Hkeep). cbv zeta in *.
    split; [done|]. split; [|done].
    intros v Hv Hcol. apply Hkeep; [done | by apply Hreg].
  - intros Hwk.
    set (dn2 := DeltaUpdateVolumes dn _ _).
    set (newVis := _ <$> filter _ newVolumes).
    set (oldVis := _ <$> filter _ deletedVolumes).
    destruct (registrations_applied newVis (dnId dn2) t Hwk) as (Hwk1 & Hreg & _).
    destruct (unregistrations_applied oldVis (dnId dn2) _ Hwk1)
      as (Hwk2 & Hunreg & _ & Hkeep). cbv zeta in *.
    split; [done|]. split.
    + intros m Hm Hconv Hcol. apply Hkeep.
      * intros d (d0 & -> & Hd0)%list_elem_of_fmap.
        apply list_elem_of_filter in Hd0 as [Hc0 Hd0]. by apply Hcol.
      * apply Hreg. apply list_elem_of_fmap. exists m. split; [done|].
        by apply list_elem_of_filter.
    + intros d Hd Hconv. apply Hunreg. apply list_elem_of_fmap. exists d.
      split; [done|]. by apply list_elem_of_filter.
Qed.

End RegistrationClaims.

(** ** The filer store *)
Section FilerClaims.

Import leveldb2.

Lemma le_bytes4_byte x b : b ∈ md5.le_bytes4 x -> 0 <= b < 256.
Proof.
  unfold md5.le_bytes4. rewrite !elem_of_cons, elem_of_nil.
  change 255 with (Z.ones 8).
  intros [->|[->|[->|[->|[]]]]]; rewrite Z.land_ones by lia; apply Z.mod_pos_bound; lia.
Qed.

Lemma md5_Sum_length msg : length (md5.Sum msg) = md5.Size.
Proof. unfold md5.Sum. by destruct (md5.blocks _ _ _) as [[[a b] c] d]. Qed.

Lemma md5_Sum_byte msg b : b ∈ md5.Sum msg -> 0 <= b < 256.
Proof.
  unfold md5.Sum. destruct (md5.blocks _ _ _) as [[[a b0] c] d].
  rewrite !elem_of_app. intros [?|[?|[?|?]]]; by eapply le_bytes4_byte.
Qed.

Lemma lastByte_lookup dir :
  let b := md5.Sum (bytes_of_string dir) in
  b !! (length b - 1)%nat = Some (lastByte dir) /\ 0 <= lastByte dir < 256.
Proof.
  cbn zeta. unfold lastByte. set (b := md5.Sum _).
  assert (Hlen : length b = md5.Size) by apply md5_Sum_length.
  rewrite last_lookup. replace (Nat.pred (length b)) with (length b - 1)%nat by lia.
  destruct (b !! (length b - 1)%nat) as [x|] eqn:E.
  - split; [done|]. cbn. apply (md5_Sum_byte (bytes_of_string dir)).
    by eapply list_elem_of_lookup_2.
  - apply lookup_ge_None in E. unfold md5.Size in Hlen. lia.
Qed.

Lemma hashToBytes_returns dir dbCount :
  dbCount <> 0 ->
  hashToBytes dir dbCount
  = Returns (md5.Sum (bytes_of_string dir), Z.rem (lastByte dir) dbCount).
Proof.
  intros Hn. unfold hashToBytes.
  destruct (lastByte_lookup dir) as [-> _]. by rewrite bool_decide_eq_false_2.
Qed.

Lemma genKey_returns dir name dbCount :
  dbCount <> 0 ->
  genKey dir name dbCount
  = Returns (md5.Sum (bytes_of_string dir) ++ bytes_of_string name,
             Z.rem (lastByte dir) dbCount).
Proof. intros Hn. unfold genKey. by rewrite hashToBytes_returns. Qed.

Lemma partition_in_range dir dbCount :
  0 < dbCount -> 0 <= Z.rem (lastByte dir) dbCount < dbCount.
Proof.
  intros Hn. destruct (lastByte_lookup dir) as [_ Hb]. apply Z.rem_bound_pos; lia.
Qed.

Lemma shard_withShard store p d :
  0 <= p -> (Z.to_nat p < length (dbs store))%nat ->
  shard (withShard store p d) p = Some d.
Proof.
  intros Hp Hlt. unfold shard, withShard. rewrite bool_decide_eq_true_2 by done.
  cbn. by apply list_lookup_insert_eq.
Qed.

Lemma withShard_twice store p d1 d2 :
  withShard (withShard store p d1) p d2 = withShard store p d2.
Proof. unfold withShard. cbn. by rewrite list_insert_insert_eq. Qed.

Lemma openAll_all_open store folders ds :
  (forall d, exists db, leveldb.OpenFile (folders d) = inl db) ->
  exists store', openAll store folders ds = (store', true)
    /\ length (dbs store') = (length (dbs store) + length ds)%nat
    /\ dbCount store' = dbCount store.
Proof.
  intros Hopen. revert store. induction ds as [|d ds IH]; intros store.
  - exists store. cbn. repeat split; lia.
  - cbn [openAll]. destruct (Hopen d) as [db ->].
    destruct (IH (mkStore (dbs store ++ [db]) (dbCount store))) as (s' & -> & Hlen & Hc).
    exists s'. split; [done|]. cbn in Hlen, Hc. rewrite length_app in Hlen.
    cbn in *. split; [lia|done].
Qed.

(** A store that [Initialize] set up over folders that all open has eight
    shards and [dbCount] eight. *)
Lemma Initialize_ready dir folders :
  (forall d, exists db, leveldb.OpenFile (folders d) = inl db) ->
  let '(store, err) := Initialize (mkStore [] 0) dir None folders in
  err = None /\ dbCount store = 8 /\ length (dbs store) = Z.to_nat (dbCount store).
Proof.
  intros Hopen. unfold Initialize, initialize.
  destruct (openAll_all_open (mkStore [] 0) folders (seq 0 (Z.to_nat 8)) Hopen)
    as (s' & -> & Hlen & _).
  cbn in *. repeat split; done.
Qed.

Variable Payload : Type.
Variable DirAndName : string -> string * string.
Variable EncodeAttributesAndChunks : Entry Payload -> list Z * option error.
Variable DecodeAttributesAndChunks : Entry Payload -> list Z -> Entry Payload * option error.
Variable zero : Payload.

(** C9.  On a store with [dbCount] shards ([dbCount] positive, as
    [Initialize] sets it), the key of a (directory, file name) pair is the
    MD5 digest of the directory followed by the file name, and the
    partition id is the digest's last byte modulo [dbCount]: it lies in
    [0, dbCount) and is the same for every file name of the directory.
    [InsertEntry], [FindEntry] and [DeleteEntry] compute this key and
    partition and work on that shard under that key, so [FindEntry] after
    [InsertEntry] decodes the very bytes the entry was encoded to. *)
Theorem filer_key_addressing (store : LevelDB2Store) (entry : Entry Payload)
    (value : list Z) :
  0 < dbCount store ->
  length (dbs store) = Z.to_nat (dbCount store) ->
  EncodeAttributesAndChunks entry = (value, None) ->
  let '(dir, name) := DirAndName (FullPath _ entry) in
  let key := md5.Sum (bytes_of_string dir) ++ bytes_of_string name in
  let p := Z.rem (lastByte dir) (dbCount store) in
  genKey dir name (dbCount store) = Returns (key, p)
  /\ 0 <= p < dbCount store
  /\ (forall fileName,
        genKey dir fileName (dbCount store)
        = Returns (md5.Sum (bytes_of_string dir) ++ bytes_of_string fileName, p))
  /\ exists db,
       shard store p = Some db
       /\ InsertEntry _ DirAndName EncodeAttributesAndChunks store entry
          = Returns (withShard store p (<[key := value]> db), None)
       /\ FindEntry _ DirAndName DecodeAttributesAndChunks zero
            (withShard store p (<[key := value]> db)) (FullPath _ entry)
          = Returns
              (let '(found, err) :=
                 DecodeAttributesAndChunks (mkEntry _ (FullPath _ entry) zero) value in
               (Some found,
                (fun err => "decode " +:+ FullPath _ entry +:+ " : " +:+ err) <$> err))
       /\ DeleteEntry DirAndName (withShard store p (<[key := value]> db))
            (FullPath _ entry)
          = Returns (withShard store p (delete key (<[key := value]> db)), None).
Proof.
  intros Hn Hlen Henc.
  destruct (DirAndName (FullPath _ entry)) as [dir name] eqn:Hdn. cbn zeta.
  set (key := md5.Sum (bytes_of_string dir) ++ bytes_of_string name).
  set (p := Z.rem (lastByte dir) (dbCount store)).
  assert (Hp : 0 <= p < dbCount store) by (by apply partition_in_range).
  assert (Hne : dbCount store <> 0) by lia.
  split; [by apply genKey_returns|]. split; [done|].
  split; [intros; by apply genKey_returns|].
  assert (Hlt : (Z.to_nat p < length (dbs store))%nat) by lia.
  destruct (lookup_lt_is_Some_2 _ _ Hlt) as [db Hdb].
  assert (Hshard : shard store p = Some db).
  { unfold shard. by rewrite bool_decide_eq_true_2 by lia. }
  exists db. split; [done|]. split; [|split].
  - unfold InsertEntry. rewrite Hdn, genKey_returns, Henc by done.
    fold p. by rewrite Hshard.
  - unfold FindEntry. rewrite Hdn. cbn [dbCount withShard].
    rewrite genKey_returns by done. fold p. fold key.
    change (mkStore (<[Z.to_nat p:=<[key:=value]> db]> (dbs store)) (dbCount store))
      with (withShard store p (<[key:=value]> db)).
    rewrite shard_withShard by lia.
    unfold leveldb.Get. rewrite lookup_insert_eq.
    by destruct (DecodeAttributesAndChunks _ _) as [found [err|]].
  - unfold DeleteEntry. rewrite Hdn. cbn [dbCount withShard].
    rewrite genKey_returns by done. fold p. fold key.
    change (mkStore (<[Z.to_nat p:=<[key:=value]> db]> (dbs store)) (dbCount store))
      with (withShard store p (<[key:=value]> db)).
    rewrite shard_withShard by lia.
    unfold leveldb.Delete. by rewrite withShard_twice.
Qed.

End FilerClaims.

(** ** The properties at concrete inputs *)
Section Witnesses.

Import types storage fixtures.

(** The log of §8's scenario is the one the three operations write. *)
Example scenarioLog_written :
  let '(_, m1, e1) := Put 42 100 50 m0 in
  let '(_, m2, e2) := Put 43 200 30 m1 in
  let '(_, m3, e3) := Delete 42 100 m2 in
  (e1, e2, e3) = (None, None, None)
  /\ entries (indexFile m3) = scenarioLog
  /\ Get m3 42 = None
  /\ Get m3 43 = Some (mkNeedleValue 43 200 30).
Proof. by vm_compute. Qed.

(** [Put(42,100,50)] then [Delete(42,100)] on an empty index over a working
    disk, and a rebuild into a missing store directory. *)
Lemma tombstone_precedence_witness :
  Get (Delete 42 100 (Put 42 100 50 m0).1.2).1.2 42 = None.
Proof.
  refine (proj1 (tombstone_precedence m0 42 100 50
                   (Delete 42 100 (Put 42 100 50 m0).1.2).1.1
                   (Delete 42 100 (Put 42 100 50 m0).1.2).1.2
                   leveldb.Missing ∅ _ _)); reflexivity.
Defined.

(** Opening the scenario log over a store directory that is older than the
    index and holds a key of another index. *)
Lemma freshness_gate_and_replay_witness :
  NewLevelDbNeedleMap noMetric staleDisk "1.ldb" (mkIndexFile "1.idx" scenarioLog None)
  = (leveldb.Present (replaySpec scenarioLog staleDb),
     inl (mkLevelDbNeedleMap (mkIndexFile "1.idx" scenarioLog None) (mkMetric 0 0 0 0)
            "1.ldb" (replaySpec scenarioLog staleDb))).
Proof.
  exact (proj1 (proj2 (freshness_gate_and_replay noMetric staleDisk "1.ldb"
                  (mkIndexFile "1.idx" scenarioLog None) staleDb (mkMetric 0 0 0 0)
                  eq_refl eq_refl))).
Defined.


(** A [Put] on a full disk. *)
Lemma failed_append_keeps_metric_update_witness :
  let '(_, m', err) := Put 1 2 3 mFull in
  err = Some "cannot write to indexfile 1.idx: no space left on device"
  /\ mapMetric_ m' = mkMetric 1 3 0 0
  /\ indexFile m' = indexFile mFull /\ db m' = db mFull.
Proof.
  pose proof (proj1 (failed_append_keeps_metric_update mFull 1 2 3
                       "no space left on device" eq_refl
                       ltac:(by vm_compute) ltac:(by vm_compute))) as H.
  vm_compute in H. vm_compute. tauto.
Defined.

(** A single master before the first election. *)
Lemma leadership_queries_witness :
  topology.Leader soloMaster = ("master:9333", Some "Raft Server not initialized!")
  /\ topology.IsLeader soloMaster = false.
Proof.
  split; [exact (proj1 (proj2 (leadership_queries soloMaster)) eq_refl) | reflexivity].
Defined.

(** An incremental sync on a new master: of two new records the first does
    not convert; volume 1 of the second is registered with the node, nothing
    is registered for volume 2, and one warning is logged. *)
Lemma sync_skips_malformed_records_witness :
  let r := topology.IncrementalSyncDataNodeRegistration _ fromRecord showRecord updateDelta
             (topology.NewTopology "master" 30000)
             [(v2, Some "unknown ttl"); (v1, None)] [] (topology.mkDataNode "dn1" ∅) in
  topology.holds (topology.topo r) v1 "dn1"
  /\ topology.locationsOf (topology.topo r) "pics" 1 0 2 = []
  /\ topology.warnings r = ["NewVolumeInfoFromShort id:2: unknown ttl"].
Proof.
  pose proof (sync_skips_malformed_records fromRecord fromRecord showRecord updateAll
                updateDelta (topology.NewTopology "master" 30000)
                (topology.mkDataNode "dn1" ∅) []
                [(v2, Some "unknown ttl"); (v1, None)] []) as H.
  cbv zeta in H. destruct H as (_ & _ & _ & _ & _ & H).
  destruct (H (map_Forall_empty _)) as (_ & Hreg & _).
  split; [|split; by vm_compute].
  apply (Hreg (v1, None)).
  - apply elem_of_cons. right. apply elem_of_cons. by left.
  - reflexivity.
  - intros d Hd. by apply elem_of_nil in Hd.
Defined.

(** "/home/photos/a.jpg" on a store of eight shards lands in shard 7. *)
Lemma filer_key_addressing_witness :
  leveldb2.genKey "/home/photos" "a.jpg" 8
  = Returns ([40; 144; 28; 6; 67; 29; 114; 226; 77; 81; 223; 24; 57; 224; 47; 7;
              97; 46; 106; 112; 103], 7).
Proof.
  pose proof (filer_key_addressing (list Z) DirAndName encode decode [] store8 photo
                [1; 2; 3] ltac:(by vm_compute) eq_refl eq_refl) as H.
  vm_compute in H. vm_compute. tauto.
Defined.

End Witnesses.

(** * Further properties of the code *)

(** ** The needle index: reads after writes, and the log as the truth *)
Section NeedleIndexMore.

Import types storage fixtures.

Implicit Types (m : LevelDbNeedleMap) (d : gmap (list Z) (list Z)).

Lemma Put_ok_inv key offset size m t m' :
  Put key offset size m = (t, m', None) ->
  writeFault (indexFile m) = None
  /\ db m' = <[NeedleIdToBytes key := OffsetToBytes offset ++ Uint32toBytes size]> (db m)
  /\ entries (indexFile m') = entries (indexFile m) ++ [mkIdxEntry key offset size]
  /\ writeFault (indexFile m') = None.
Proof.
  rewrite Put_run. cbn zeta.
  destruct (writeFault (indexFile m)) as [aerr|]; [discriminate|].
  intros H. apply (f_equal (fun x => x.1.2)) in H. cbn [fst snd] in H. by subst m'.
Qed.

Lemma Delete_ok_inv key offset m t m' :
  Delete key offset m = (t, m', None) ->
  writeFault (indexFile m) = None
  /\ db m' = delete (NeedleIdToBytes key) (db m)
  /\ entries (indexFile m')
     = entries (indexFile m) ++ [mkIdxEntry key offset TombstoneFileSize]
  /\ writeFault (indexFile m') = None.
Proof.
  rewrite Delete_run. cbn zeta.
  destruct (match Get m key with
            | Some n => ([EvMetric], logDelete (mapMetric_ m) (Size n))
            | None => ([], mapMetric_ m) end) as [t0 mm].
  destruct (writeFault (indexFile m)) as [aerr|]; [discriminate|].
  intros H. apply (f_equal (fun x => x.1.2)) in H. cbn [fst snd] in H. by subst m'.
Qed.

Lemma Get_db_ext m1 m2 key :
  db m1 !! NeedleIdToBytes key = db m2 !! NeedleIdToBytes key ->
  Get m1 key = Get m2 key.
Proof. intros H. by rewrite !Get_lookup, H. Qed.

(** X1.  After a [Put(key, offset, size)] that returned nil, [Get(key)]
    finds the entry with the offset and size just written (as the 32-bit
    values the store holds), whatever was stored under the key before, and
    [Get] of every other key answers as it did before the call. *)
Theorem Put_then_Get (m : LevelDbNeedleMap) (key offset size : Z)
    (t : list Event) (m' : LevelDbNeedleMap) :
  Put key offset size m = (t, m', None) ->
  is_uint 64 key ->
  Get m' key = Some (mkNeedleValue key (wrap 32 offset) (wrap 32 size))
  /\ (forall key', is_uint 64 key' -> key' <> key -> Get m' key' = Get m key').
Proof.
  intros (_ & Hdb & _)%Put_ok_inv Hkey. split.
  - apply Get_written. rewrite Hdb. apply lookup_insert_eq.
  - intros key' Hkey' Hne. apply Get_db_ext. rewrite Hdb.
    apply lookup_insert_ne. intros Heq. apply Hne. symmetry.
    by apply NeedleIdToBytes_inj.
Qed.

(** X2.  A [Delete(key, offset)] that returned nil has appended exactly one
    tombstone record to the index log, also when the store held nothing
    under the key, and has changed no other key's [Get]. *)
Theorem Delete_appends_tombstone_and_keeps_others (m : LevelDbNeedleMap)
    (key offset : Z) (t : list Event) (m' : LevelDbNeedleMap) :
  Delete key offset m = (t, m', None) ->
  is_uint 64 key ->
  entries (indexFile m')
  = entries (indexFile m) ++ [mkIdxEntry key offset TombstoneFileSize]
  /\ Get m' key = None
  /\ (forall key', is_uint 64 key' -> key' <> key -> Get m' key' = Get m key').
Proof.
  intros (_ & Hdb & Hlog & _)%Delete_ok_inv Hkey. split; [done|]. split.
  - apply Get_absent. rewrite Hdb. apply lookup_delete_eq.
  - intros key' Hkey' Hne. apply Get_db_ext. rewrite Hdb.
    apply lookup_delete_ne. intros Heq. apply Hne. symmetry.
    by apply NeedleIdToBytes_inj.
Qed.

Lemma replaySpec_snoc es e d :
  replaySpec (es ++ [e]) d = replaySpec [e] (replaySpec es d).
Proof. apply replaySpec_app. Qed.

(** X3.  The log is the truth: when the store is what a replay of the log
    gives, it still is after any operations whose [Put]s carry a non-zero
    offset and a size other than the tombstone, run over a working disk:
    [generateLevelDbFile] over the log then reproduces the live store. *)
Theorem rebuild_reproduces_live_store (ops : list Op) (m : LevelDbNeedleMap)
    (d0 : gmap (list Z) (list Z)) :
  writeFault (indexFile m) = None ->
  Forall replayable ops ->
  generateLevelDbFile (leveldb.Present d0) (indexFile m) = (leveldb.Present (db m), None) ->
  let '(m', errs) := runOps ops m in
  Forall (eq None) errs
  /\ generateLevelDbFile (leveldb.Present d0) (indexFile m')
     = (leveldb.Present (db m'), None).
Proof.
  revert m. induction ops as [|op ops IH]; intros m Hfault Hops Hinv.
  - cbn. by split.
  - apply Forall_cons in Hops as [Hop Hops]. cbn [runOps].
    destruct (applyOp op m) as [[t m1] err] eqn:Hrun.
    assert (err = None /\ writeFault (indexFile m1) = None
            /\ generateLevelDbFile (leveldb.Present d0) (indexFile m1)
               = (leveldb.Present (db m1), None)) as (-> & Hfault1 & Hinv1).
    { rewrite (generateLevelDbFile_replay _ d0) in Hinv by done.
      injection Hinv as Hinv.
      destruct op as [key offset size|key offset]; cbn [applyOp] in Hrun.
      - assert (err = None) as ->.
        { rewrite Put_run, Hfault in Hrun. cbn zeta in Hrun. congruence. }
        destruct (Put_ok_inv _ _ _ _ _ _ Hrun) as (_ & Hdb & Hlog & Hf).
        split; [done|]. split; [done|].
        rewrite (generateLevelDbFile_replay _ d0) by done.
        rewrite Hlog, replaySpec_snoc, Hinv, Hdb. cbn [replaySpec eKey eOffset eSize].
        destruct Hop as [Hoff Hsize].
        by rewrite Hoff, bool_decide_eq_false_2.
      - assert (err = None) as ->.
        { rewrite Delete_run, Hfault in Hrun.
          destruct (match Get m key with
                    | Some n => ([EvMetric], logDelete (mapMetric_ m) (Size n))
                    | None => ([], mapMetric_ m) end). cbn zeta in Hrun. congruence. }
        destruct (Delete_ok_inv _ _ _ _ _ Hrun) as (_ & Hdb & Hlog & Hf).
        split; [done|]. split; [done|].
        rewrite (generateLevelDbFile_replay _ d0) by done.
        rewrite Hlog, replaySpec_snoc, Hinv, Hdb. cbn [replaySpec eKey eOffset eSize].
        by rewrite bool_decide_eq_true_2. }
    specialize (IH m1 Hfault1 Hops Hinv1).
    destruct (runOps ops m1) as [m2 errs]. destruct IH as [He Hg].
    split; [by constructor | done].
Qed.

(** X4.  [Put] does not look at what it stores: a [Put] of a zero offset,
    or of the tombstone size, that returned nil leaves an entry that [Get]
    finds in the live store, while a store rebuilt from the index log has
    no entry for the key. *)
Theorem Put_unreplayable_entry_is_lost_on_rebuild (m : LevelDbNeedleMap)
    (key offset size : Z) (t : list Event) (m' : LevelDbNeedleMap)
    (dir : leveldb.Dir) (d0 : gmap (list Z) (list Z)) :
  Put key offset size m = (t, m', None) ->
  IsZero offset = true \/ size = TombstoneFileSize ->
  leveldb.OpenFile dir = inl d0 ->
  Get m' key = Some (mkNeedleValue key (wrap 32 offset) (wrap 32 size))
  /\ exists d', generateLevelDbFile dir (indexFile m') = (leveldb.Present d', None)
                /\ Get (withDb m' d') key = None.
Proof.
  intros (_ & Hdb & Hlog & _)%Put_ok_inv Hbad Hopen. split.
  - apply Get_written. rewrite Hdb. apply lookup_insert_eq.
  - eexists. split; [by apply generateLevelDbFile_replay|].
    apply Get_absent. cbn [db withDb].
    rewrite Hlog, replaySpec_snoc. cbn [replaySpec eKey eOffset eSize].
    assert (bool_decide (size = TombstoneFileSize) || IsZero offset = true) as ->.
    { destruct Hbad as [->| ->]; [apply orb_true_r|].
      by rewrite bool_decide_eq_true_2. }
    apply lookup_delete_eq.
Qed.

Lemma replaySpec_idemp es d : replaySpec es (replaySpec es d) = replaySpec es d.
Proof.
  apply map_eq. intros kb. apply replaySpec_agree.
  destruct (decide (kb ∈ (fun e => NeedleIdToBytes (eKey e)) <$> es)) as [Hin|Hnot];
    [by left | right; by apply replaySpec_untouched].
Qed.

(** X5.  Regenerating a store that was just regenerated from the same log
    changes nothing: a second [generateLevelDbFile] leaves the directory as
    the first one made it. *)
Theorem generateLevelDbFile_twice (dir : leveldb.Dir) (f : IndexFile)
    (d0 : gmap (list Z) (list Z)) :
  leveldb.OpenFile dir = inl d0 ->
  let '(dir1, err1) := generateLevelDbFile dir f in
  err1 = None /\ generateLevelDbFile dir1 f = (dir1, None).
Proof.
  intros Hopen. rewrite (generateLevelDbFile_replay _ _ _ Hopen). split; [done|].
  rewrite (generateLevelDbFile_replay _ (replaySpec (entries f) d0)) by done.
  by rewrite replaySpec_idemp.
Qed.

(** X6.  A store that does not open is not repaired: [NewLevelDbNeedleMap]
    drops the error [generateLevelDbFile] returned, fails on its own open
    with leveldb's error whether or not the store counted as fresh, and
    leaves the directory as it found it. *)
Theorem NewLevelDbNeedleMap_store_does_not_open
    (newMetric : IndexFile -> mapMetric + error) (disk : Disk) (name : string)
    (f : IndexFile) (why : error) :
  leveldb.OpenFile (dbDir disk) = inr why ->
  generateLevelDbFile (dbDir disk) f = (dbDir disk, Some why)
  /\ NewLevelDbNeedleMap newMetric disk name f = (dbDir disk, inr why).
Proof.
  intros Hopen. unfold NewLevelDbNeedleMap, generateLevelDbFile. rewrite Hopen.
  split; [done|]. destruct (negb _); cbn [fst]; by rewrite Hopen.
Qed.

End NeedleIndexMore.

(** ** The filer store: reads after writes, other entries, a failed start *)
Section FilerMore.

Import leveldb2.

Lemma string_of_bytes_of_string (s : string) : string_of_bytes (bytes_of_string s) = s.
Proof.
  unfold string_of_bytes, bytes_of_string. rewrite <- list_fmap_compose.
  rewrite <- (String.string_of_list_ascii_of_string s) at 2. f_equal.
  induction (String.list_ascii_of_string s) as [|a l IH]; [done|].
  cbn [fmap list_fmap]. cbn [compose]. rewrite Nat2Z.id, Ascii.ascii_nat_embedding.
  f_equal. apply IH.
Qed.

Lemma bytes_of_string_inj (s1 s2 : string) :
  bytes_of_string s1 = bytes_of_string s2 -> s1 = s2.
Proof.
  intros H. apply (f_equal string_of_bytes) in H.
  by rewrite !string_of_bytes_of_string in H.
Qed.

Lemma key_inj dir1 name1 dir2 name2 :
  md5.Sum (bytes_of_string dir1) ++ bytes_of_string name1
  = md5.Sum (bytes_of_string dir2) ++ bytes_of_string name2 ->
  md5.Sum (bytes_of_string dir1) = md5.Sum (bytes_of_string dir2) /\ name1 = name2.
Proof.
  intros H. apply app_inj_1 in H as [H1 H2]; [|by rewrite !md5_Sum_length].
  split; [done | by apply bytes_of_string_inj].
Qed.

Lemma shard_Some store p :
  0 <= p -> (Z.to_nat p < length (dbs store))%nat -> is_Some (shard store p).
Proof.
  intros Hp Hlt. unfold shard. rewrite bool_decide_eq_true_2 by done.
  by apply lookup_lt_is_Some_2.
Qed.

Lemma shard_withShard_ne store p q d :
  0 <= p -> 0 <= q -> p <> q -> shard (withShard store p d) q = shard store q.
Proof.
  intros Hp Hq Hne. unfold shard, withShard. cbn [dbs].
  case_bool_decide; [|done]. apply list_lookup_insert_ne. lia.
Qed.

(** X7.  The file name is read back from a generated key: [getNameFromKey]
    of the key [genKey] makes for (directory, file name) is the file name,
    so two pairs get the same key only when the names are equal and the
    directories have the same digest. *)
Theorem getNameFromKey_of_genKey (dir fileName : string) (dbCount : Z) :
  dbCount <> 0 ->
  exists key partitionId,
    genKey dir fileName dbCount = Returns (key, partitionId)
    /\ getNameFromKey key = Returns (bytes_of_string fileName)
    /\ string_of_bytes (bytes_of_string fileName) = fileName
    /\ (forall dir' fileName' key' partitionId',
          genKey dir' fileName' dbCount = Returns (key', partitionId') ->
          key' = key ->
          fileName' = fileName
          /\ md5.Sum (bytes_of_string dir') = md5.Sum (bytes_of_string dir)).
Proof.
  intros Hn. eexists _, _. split; [by apply genKey_returns|]. split; [|split].
  - unfold getNameFromKey. rewrite length_app, md5_Sum_length.
    rewrite bool_decide_eq_false_2 by lia.
    by rewrite drop_app_length' by (symmetry; apply md5_Sum_length).
  - apply string_of_bytes_of_string.
  - intros dir' fileName' key' p'. rewrite genKey_returns by done.
    intros [= <- _] Hkey. apply key_inj in Hkey as [? ?]. done.
Qed.

Variable Payload : Type.
Variable DirAndName : string -> string * string.
Variable EncodeAttributesAndChunks : Entry Payload -> list Z * option error.
Variable DecodeAttributesAndChunks : Entry Payload -> list Z -> Entry Payload * option error.
Variable zero : Payload.

(** X8.  On an initialised store [DeleteEntry] returns nil whether or not
    the entry exists, and a [FindEntry] of the same path afterwards reports
    [ErrNotFound]. *)
Theorem DeleteEntry_then_FindEntry (store : LevelDB2Store) (fullpath : string) :
  0 < dbCount store ->
  length (dbs store) = Z.to_nat (dbCount store) ->
  exists store',
    DeleteEntry DirAndName store fullpath = Returns (store', None)
    /\ dbCount store' = dbCount store
    /\ length (dbs store') = length (dbs store)
    /\ FindEntry _ DirAndName DecodeAttributesAndChunks zero store' fullpath
       = Returns (None, Some (ErrNotFound)).
Proof.
  intros Hn Hlen. unfold DeleteEntry, FindEntry.
  destruct (DirAndName fullpath) as [dir name].
  rewrite genKey_returns by lia.
  set (key := md5.Sum (bytes_of_string dir) ++ bytes_of_string name).
  set (p := Z.rem (lastByte dir) (dbCount store)).
  assert (Hp : 0 <= p < dbCount store) by (by apply partition_in_range).
  destruct (shard_Some store p) as [db Hdb]; [lia|lia|]. rewrite Hdb.
  unfold leveldb.Delete. eexists. split; [done|].
  cbn [dbCount withShard dbs]. split; [done|]. split; [apply length_insert|].
  rewrite genKey_returns by lia. fold p. fold key.
  change (mkStore (<[Z.to_nat p:=delete key db]> (dbs store)) (dbCount store))
    with (withShard store p (delete key db)).
  rewrite shard_withShard by lia.
  unfold leveldb.Get. by rewrite lookup_delete_eq.
Qed.

(** X9.  Writes do not reach other entries: after an [InsertEntry] or a
    [DeleteEntry] for one path, [FindEntry] of a path with another file
    name, or in a directory with another digest, answers as before. *)
Theorem FindEntry_unaffected_by_other_paths (store : LevelDB2Store)
    (entry : Entry Payload) (other : string) :
  0 < dbCount store ->
  (let '(dir, name) := DirAndName (FullPath _ entry) in
   let '(dir', name') := DirAndName other in
   md5.Sum (bytes_of_string dir') <> md5.Sum (bytes_of_string dir) \/ name' <> name) ->
  let find s := FindEntry _ DirAndName DecodeAttributesAndChunks zero s other in
  (forall store' err,
     InsertEntry _ DirAndName EncodeAttributesAndChunks store entry = Returns (store', err) ->
     find store' = find store)
  /\ (forall store' err,
        DeleteEntry DirAndName store (FullPath _ entry) = Returns (store', err) ->
        find store' = find store).
Proof.
  intros Hn Hne. cbn zeta.
  unfold InsertEntry, DeleteEntry, FindEntry.
  destruct (DirAndName (FullPath _ entry)) as [dir name].
  destruct (DirAndName other) as [dir' name'].
  rewrite !genKey_returns by lia.
  set (key := md5.Sum (bytes_of_string dir) ++ bytes_of_string name).
  set (p := Z.rem (lastByte dir) (dbCount store)).
  set (key' := md5.Sum (bytes_of_string dir') ++ bytes_of_string name').
  set (p' := Z.rem (lastByte dir') (dbCount store)).
  assert (Hp : 0 <= p < dbCount store) by (by apply partition_in_range).
  assert (Hp' : 0 <= p' < dbCount store) by (by apply partition_in_range).
  assert (Hkey : key' <> key).
  { intros Heq. apply key_inj in Heq as [? ?]. destruct Hne; done. }
  assert (Hfind : forall d, (forall db, shard store p = Some db -> d !! key' = db !! key') ->
    is_Some (shard store p) ->
    match shard (withShard store p d) p' with
    | Some db =>
        match leveldb.Get db key' with
        | (_, Some err) =>
            if bool_decide (err = leveldb.ErrNotFound)
            then Returns (None, Some ErrNotFound) else Panics "nil pointer dereference"
        | (data, None) =>
            match DecodeAttributesAndChunks (mkEntry _ other zero) data with
            | (entry', Some err) =>
                Returns (Some entry', Some ("decode " +:+ other +:+ " : " +:+ err))
            | (entry', None) => Returns (Some entry', None)
            end
        end
    | None => Panics "index out of range"
    end
    = match shard store p' with
      | Some db =>
          match leveldb.Get db key' with
          | (_, Some err) =>
              if bool_decide (err = leveldb.ErrNotFound)
              then Returns (None, Some ErrNotFound) else Panics "nil pointer dereference"
          | (data, None) =>
              match DecodeAttributesAndChunks (mkEntry _ other zero) data with
              | (entry', Some err) =>
                  Returns (Some entry', Some ("decode " +:+ other +:+ " : " +:+ err))
              | (entry', None) => Returns (Some entry', None)
              end
          end
      | None => Panics "index out of range"
      end).
  { intros d Hd [db0 Hdb0]. destruct (decide (p = p')) as [<-|Hpp].
    - assert (Hlt : (Z.to_nat p < length (dbs store))%nat).
      { unfold shard in Hdb0. rewrite bool_decide_eq_true_2 in Hdb0 by lia.
        by eapply lookup_lt_Some. }
      rewrite shard_withShard, Hdb0 by lia. unfold leveldb.Get.
      by rewrite (Hd db0 Hdb0).
    - by rewrite shard_withShard_ne by lia. }
  split.
  - intros store' err.
    destruct (EncodeAttributesAndChunks entry) as [value [encErr|]].
    { intros [= <- _]. by rewrite genKey_returns by lia. }
    destruct (shard store p) as [db|] eqn:Hdb; [|discriminate].
    unfold leveldb.Put. intros [= <- _]. cbn [dbCount withShard].
    rewrite genKey_returns by lia. fold p'. fold key'.
    change (mkStore (<[Z.to_nat p:=<[key:=value]> db]> (dbs store)) (dbCount store))
      with (withShard store p (<[key:=value]> db)).
    apply Hfind; [|done]. intros db1 [= <-]. by apply lookup_insert_ne.
  - intros store' err.
    destruct (shard store p) as [db|] eqn:Hdb; [|discriminate].
    unfold leveldb.Delete. intros [= <- _]. cbn [dbCount withShard].
    rewrite genKey_returns by lia. fold p'. fold key'.
    change (mkStore (<[Z.to_nat p:=delete key db]> (dbs store)) (dbCount store))
      with (withShard store p (delete key db)).
    apply Hfind; [|done]. intros db1 [= <-]. by apply lookup_delete_ne.
Qed.

Lemma openAll_fails store folders ds d why :
  d ∈ ds -> leveldb.OpenFile (folders d) = inr why ->
  exists store', openAll store folders ds = (store', false)
                 /\ dbCount store' = dbCount store.
Proof.
  intros Hin Hfail. revert store. induction ds as [|d0 ds IH]; intros store.
  - by apply elem_of_nil in Hin.
  - cbn [openAll]. destruct (leveldb.OpenFile (folders d0)) as [db|err] eqn:Hd0.
    + apply elem_of_cons in Hin as [->|Hin]; [congruence|].
      destruct (IH Hin (mkStore (dbs store ++ [db]) (dbCount store))) as (s' & -> & Hc).
      by exists s'.
    + by exists store.
Qed.

(** X10.  [initialize] swallows a failed open: when one of the shard
    folders does not open it still returns a nil error, with [dbCount] left
    unset, and on the store it leaves behind (a new store, [dbCount] zero)
    every [InsertEntry], [FindEntry] and [DeleteEntry] panics on the
    division by [dbCount]. *)
Theorem initialize_swallows_open_error (dir : string) (folders : nat -> leveldb.Dir)
    (dbCount : Z) (d : nat) (why : error) :
  (d < Z.to_nat dbCount)%nat ->
  leveldb.OpenFile (folders d) = inr why ->
  let '(store, err) := initialize (mkStore [] 0) dir None folders dbCount in
  err = None
  /\ leveldb2.dbCount store = 0
  /\ (forall entry, InsertEntry _ DirAndName EncodeAttributesAndChunks store entry
                    = Panics "integer divide by zero")
  /\ (forall fullpath,
        FindEntry _ DirAndName DecodeAttributesAndChunks zero store fullpath
        = Panics "integer divide by zero"
        /\ DeleteEntry DirAndName store fullpath = Panics "integer divide by zero").
Proof.
  intros Hd Hfail. unfold initialize.
  destruct (openAll_fails (mkStore [] 0) folders (seq 0 (Z.to_nat dbCount)) d why)
    as (store' & -> & Hc); [apply elem_of_seq; lia | done |].
  cbn [leveldb2.dbCount] in Hc. split; [done|]. split; [done|].
  assert (Hgen : forall dir0 name, genKey dir0 name (leveldb2.dbCount store')
                                   = Panics "integer divide by zero").
  { intros dir0 name. unfold genKey, hashToBytes. rewrite Hc.
    by destruct (lastByte_lookup dir0) as [-> _]. }
  split.
  - intros entry. unfold InsertEntry.
    destruct (DirAndName (FullPath _ entry)) as [dir0 name]. by rewrite Hgen.
  - intros fullpath. unfold FindEntry, DeleteEntry.
    destruct (DirAndName fullpath) as [dir0 name]. by rewrite Hgen.
Qed.

End FilerMore.

(** ** The filer store: listing a directory *)
Section FilerListing.

Import leveldb2.

Lemma bytes_leb_refl a : leveldb.bytes_leb a a = true.
Proof.
  induction a as [|x a IH]; [done|]. cbn. by rewrite Z.ltb_irrefl.
Qed.

Lemma bytes_leb_total a b : leveldb.bytes_leb a b = true \/ leveldb.bytes_leb b a = true.
Proof.
  revert b. induction a as [|x a IH]; intros [|y b]; cbn; auto.
  destruct (x <? y) eqn:E1; [by left|].
  destruct (y <? x) eqn:E2; [by right|]. apply IH.
Qed.

Lemma bytes_leb_trans a b c :
  leveldb.bytes_leb a b = true -> leveldb.bytes_leb b c = true ->
  leveldb.bytes_leb a c = true.
Proof.
  revert b c. induction a as [|x a IH]; intros [|y b] [|z c]; cbn; try done.
  destruct (Z.ltb_spec x y), (Z.ltb_spec y x), (Z.ltb_spec y z), (Z.ltb_spec z y),
    (Z.ltb_spec x z), (Z.ltb_spec z x); try done; try lia.
  apply IH.
Qed.

#[local] Instance key_le_total : Total leveldb.key_le.
Proof. intros kv1 kv2. apply bytes_leb_total. Qed.

#[local] Instance key_le_trans : Transitive leveldb.key_le.
Proof. intros kv1 kv2 kv3. apply bytes_leb_trans. Qed.

(** A key between two keys that start with [p] starts with [p]. *)
Lemma bytes_leb_between (p s x k : list Z) :
  leveldb.bytes_leb (p ++ s) k = true -> leveldb.bytes_leb k (p ++ x) = true ->
  p `prefix_of` k.
Proof.
  revert k. induction p as [|a p IH]; intros k H1 H2; [apply prefix_nil|].
  destruct k as [|b k]; [done|]. cbn in H1, H2.
  destruct (Z.ltb_spec a b), (Z.ltb_spec b a); try done; try lia.
  assert (a = b) as -> by lia. apply prefix_cons. by apply IH.
Qed.

Lemma StronglySorted_List_filter {A} (R : relation A) (f : A -> bool) l :
  StronglySorted R l -> StronglySorted R (List.filter f l).
Proof.
  induction 1 as [|x l Hl IH Hx]; cbn; [constructor|].
  destruct (f x); [|done]. constructor; [done|].
  apply Forall_forall. intros y Hy. apply list_elem_of_In, filter_In in Hy as [Hy _].
  rewrite Forall_forall in Hx. apply Hx. by apply list_elem_of_In.
Qed.

Lemma List_filter_nil {A} (f : A -> bool) (l : list A) :
  (forall x, x ∈ l -> f x = false) -> List.filter f l = [].
Proof.
  induction l as [|x l IH]; intros H; [done|]. cbn.
  rewrite (H x) by left. apply IH. intros y Hy. apply H. by right.
Qed.

Lemma NewIterator_spec db start :
  StronglySorted leveldb.key_le (leveldb.NewIterator db start)
  /\ Forall (fun kv => leveldb.bytes_leb start kv.1 = true
                       /\ db !! kv.1 = Some kv.2) (leveldb.NewIterator db start).
Proof.
  unfold leveldb.NewIterator. split.
  - apply StronglySorted_List_filter, StronglySorted_merge_sort; apply _.
  - apply Forall_forall. intros [k v] Hin.
    apply list_elem_of_In, filter_In in Hin as [Hin Hge]. split; [done|].
    apply list_elem_of_In in Hin. rewrite merge_sort_Permutation in Hin.
    by apply elem_of_map_to_list in Hin.
Qed.

Lemma wrap_int_pred limit :
  - 2 ^ 63 < limit < 2 ^ 63 -> wrap_int (limit - 1) = limit - 1.
Proof.
  intros H. unfold wrap_int. rewrite Z.mod_small; lia.
Qed.

Variable Payload : Type.
Variable DirAndName : string -> string * string.
Variable DecodeAttributesAndChunks : Entry Payload -> list Z -> Entry Payload * option error.
Variable zero : Payload.
Variable NewFullPath : string -> string -> string.

Lemma getNameFromKey_prefixed (p key : list Z) :
  length p = md5.Size -> p `prefix_of` key ->
  getNameFromKey key = Returns (drop md5.Size key).
Proof.
  intros Hlen [rest ->]. unfold getNameFromKey.
  rewrite bool_decide_eq_false_2; [done|]. rewrite length_app. lia.
Qed.

(** The loop, on what a sorted iterator from the start key yields. *)
Lemma listLoop_sorted (p : list Z) (fullpath startFileName : string) (inclusive : bool)
    (s : list Z) (iter : list (list Z * list Z)) :
  length p = md5.Size ->
  StronglySorted leveldb.key_le iter ->
  Forall (fun kv => leveldb.bytes_leb (p ++ s) kv.1 = true) iter ->
  forall limit entries,
    - 2 ^ 63 < limit < 2 ^ 63 ->
    listLoop _ DecodeAttributesAndChunks zero NewFullPath p fullpath startFileName
             inclusive iter limit entries
    = Returns (decodeEntries _ DecodeAttributesAndChunks zero NewFullPath fullpath
                 (take (Z.to_nat limit) (List.filter (listable p startFileName inclusive) iter))
                 entries).
Proof.
  intros Hp Hsorted Hge. induction Hsorted as [|[key value] rest Hrest IH Hhd];
    intros limit entries Hlimit; [cbn [listLoop List.filter]; by rewrite take_nil|].
  apply Forall_cons in Hge as [Hkey Hge]. specialize (IH Hge).
  cbn [listLoop List.filter]. unfold listable at 1. cbn [fst] in *.
  destruct (decide (p `prefix_of` key)) as [Hpre|Hnot].
  - rewrite (bool_decide_eq_true_2 _ Hpre). cbn [negb andb].
    rewrite (getNameFromKey_prefixed p) by done.
    destruct (bool_decide (string_of_bytes (drop md5.Size key) = "")); cbn [negb andb];
      [by apply IH|].
    destruct (bool_decide (string_of_bytes (drop md5.Size key) = startFileName) && negb inclusive);
      cbn [negb]; [by apply IH|].
    rewrite wrap_int_pred by done.
    destruct (limit - 1 <? 0) eqn:Hlt.
    + replace (Z.to_nat limit) with 0%nat by lia. done.
    + replace (Z.to_nat limit) with (S (Z.to_nat (limit - 1))) by lia.
      cbn [take decodeEntries].
      destruct (DecodeAttributesAndChunks _ value) as [entry' [decodeErr|]]; [done|].
      apply IH. lia.
  - rewrite (bool_decide_eq_false_2 _ Hnot). cbn [negb andb].
    assert (List.filter (listable p startFileName inclusive) rest = []) as ->;
      [|by rewrite take_nil].
    apply List_filter_nil. intros [key' value'] Hin. unfold listable. cbn [fst].
    rewrite bool_decide_eq_false_2; [done|]. intros [x ->]. apply Hnot.
    apply (bytes_leb_between p s x); [done|].
    rewrite Forall_forall in Hhd. by apply (Hhd _ Hin).
Qed.

(** At the least [int] the first decrement of the counter wraps around to
    the greatest. *)
Lemma listLoop_least (p : list Z) (fullpath startFileName : string) (inclusive : bool)
    (s : list Z) (iter : list (list Z * list Z)) :
  length p = md5.Size ->
  StronglySorted leveldb.key_le iter ->
  Forall (fun kv => leveldb.bytes_leb (p ++ s) kv.1 = true) iter ->
  forall entries,
    listLoop _ DecodeAttributesAndChunks zero NewFullPath p fullpath startFileName
             inclusive iter (- 2 ^ 63) entries
    = Returns (decodeEntries _ DecodeAttributesAndChunks zero NewFullPath fullpath
                 (take (S (Z.to_nat (2 ^ 63 - 1)))
                    (List.filter (listable p startFileName inclusive) iter))
                 entries).
Proof.
  intros Hp Hsorted Hge. induction Hsorted as [|[key value] rest Hrest IH Hhd];
    intros entries; [cbn [listLoop List.filter take]; reflexivity|].
  pose proof Hge as Hge0.
  apply Forall_cons in Hge as [Hkey Hge]. specialize (IH Hge).
  cbn [listLoop List.filter]. unfold listable at 1. cbn [fst] in *.
  destruct (decide (p `prefix_of` key)) as [Hpre|Hnot].
  - rewrite (bool_decide_eq_true_2 _ Hpre). cbn [negb andb].
    rewrite (getNameFromKey_prefixed p) by assumption.
    destruct (bool_decide (string_of_bytes (drop md5.Size key) = "")); cbn [negb andb];
      [apply IH|].
    destruct (bool_decide (string_of_bytes (drop md5.Size key) = startFileName) && negb inclusive);
      cbn [negb]; [apply IH|].
    assert (Hw : wrap_int (- 2 ^ 63 - 1) = 2 ^ 63 - 1) by reflexivity.
    rewrite Hw.
    assert (Hlt : (2 ^ 63 - 1 <? 0) = false) by reflexivity.
    rewrite Hlt. cbn [take decodeEntries].
    destruct (DecodeAttributesAndChunks _ value) as [entry' [decodeErr|]]; [reflexivity|].
    apply (listLoop_sorted p fullpath startFileName inclusive s rest Hp Hrest Hge).
    lia.
  - rewrite (bool_decide_eq_false_2 _ Hnot). cbn [negb andb].
    assert (List.filter (listable p startFileName inclusive) rest = []) as ->;
      [|cbn [take]; reflexivity].
    apply List_filter_nil. intros [key' value'] Hin. unfold listable. cbn [fst].
    rewrite bool_decide_eq_false_2; [reflexivity|]. intros [x ->]. apply Hnot.
    apply (bytes_leb_between p s x); [assumption|].
    rewrite Forall_forall in Hhd. by apply (Hhd _ Hin).
Qed.

Lemma genDirectoryKeyPrefix_returns fullpath startFileName dbCount :
  dbCount <> 0 ->
  genDirectoryKeyPrefix fullpath startFileName dbCount
  = Returns (md5.Sum (bytes_of_string fullpath) ++ bytes_of_string startFileName,
             Z.rem (lastByte fullpath) dbCount).
Proof.
  intros Hn. unfold genDirectoryKeyPrefix. rewrite hashToBytes_returns by done.
  case_bool_decide as Hlen; [done|].
  destruct startFileName; [by rewrite app_nil_r | cbn in Hlen; lia].
Qed.

(** [ListDirectoryEntries] on an initialised store, as one expression. *)
Lemma ListDirectoryEntries_run (store : LevelDB2Store) (fullpath startFileName : string)
    (inclusive : bool) (limit : Z) :
  0 < dbCount store ->
  length (dbs store) = Z.to_nat (dbCount store) ->
  - 2 ^ 63 < limit < 2 ^ 63 ->
  let p := md5.Sum (bytes_of_string fullpath) in
  exists db,
    shard store (Z.rem (lastByte fullpath) (dbCount store)) = Some db
    /\ ListDirectoryEntries _ DecodeAttributesAndChunks zero NewFullPath store fullpath
         startFileName inclusive limit
       = Returns (decodeEntries _ DecodeAttributesAndChunks zero NewFullPath fullpath
                    (take (Z.to_nat limit)
                       (List.filter (listable p startFileName inclusive)
                          (leveldb.NewIterator db (p ++ bytes_of_string startFileName))))
                    []).
Proof.
  intros Hn Hlen Hlimit p. unfold ListDirectoryEntries.
  rewrite !genDirectoryKeyPrefix_returns by lia. cbn [bytes_of_string].
  change (bytes_of_string "") with (@nil Z). rewrite app_nil_r. fold p.
  set (part := Z.rem (lastByte fullpath) (dbCount store)).
  assert (Hp : 0 <= part < dbCount store) by (by apply partition_in_range).
  destruct (shard_Some store part) as [db Hdb]; [lia|lia|].
  exists db. split; [done|]. rewrite Hdb.
  destruct (NewIterator_spec db (p ++ bytes_of_string startFileName)) as [Hs Hf].
  apply (listLoop_sorted p fullpath startFileName inclusive (bytes_of_string startFileName));
    [apply md5_Sum_length | done | | done].
  eapply Forall_impl; [exact Hf|]. by intros kv [? _].
Qed.

(** The same for every [int], the least included. *)
Lemma ListDirectoryEntries_run_int (store : LevelDB2Store) (fullpath startFileName : string)
    (inclusive : bool) (limit : Z) :
  0 < dbCount store ->
  length (dbs store) = Z.to_nat (dbCount store) ->
  - 2 ^ 63 <= limit < 2 ^ 63 ->
  let p := md5.Sum (bytes_of_string fullpath) in
  exists db n,
    shard store (Z.rem (lastByte fullpath) (dbCount store)) = Some db
    /\ ListDirectoryEntries _ DecodeAttributesAndChunks zero NewFullPath store fullpath
         startFileName inclusive limit
       = Returns (decodeEntries _ DecodeAttributesAndChunks zero NewFullPath fullpath
                    (take n
                       (List.filter (listable p startFileName inclusive)
                          (leveldb.NewIterator db (p ++ bytes_of_string startFileName))))
                    [])
    /\ (- 2 ^ 63 < limit -> n = Z.to_nat limit)
    /\ (limit = - 2 ^ 63 -> n = S (Z.to_nat (2 ^ 63 - 1))).
Proof.
  intros Hn Hlen Hlimit p.
  destruct (decide (limit = - 2 ^ 63)) as [->|Hne].
  - unfold ListDirectoryEntries.
    rewrite !genDirectoryKeyPrefix_returns by lia.
    change (bytes_of_string "") with (@nil Z). rewrite app_nil_r. fold p.
    set (part := Z.rem (lastByte fullpath) (dbCount store)).
    assert (Hp : 0 <= part < dbCount store) by (by apply partition_in_range).
    destruct (shard_Some store part) as [db Hdb]; [lia|lia|].
    exists db, (S (Z.to_nat (2 ^ 63 - 1))). split; [assumption|]. rewrite Hdb.
    split; [|split; [lia | reflexivity]].
    destruct (NewIterator_spec db (p ++ bytes_of_string startFileName)) as [Hs Hf].
    apply (listLoop_least p fullpath startFileName inclusive (bytes_of_string startFileName));
      [apply md5_Sum_length | assumption | ].
    eapply Forall_impl; [exact Hf|]. by intros kv [? _].
  - destruct (ListDirectoryEntries_run store fullpath startFileName inclusive limit)
      as (db & Hdb & Hrun); [assumption | assumption | lia |].
    exists db, (Z.to_nat limit). split; [assumption|]. split; [exact Hrun|].
    split; [reflexivity | intros ?; contradiction].
Qed.

Lemma decodeEntries_sound (fullpath : string) (kvs : list (list Z * list Z))
    (acc : list (Entry Payload)) :
  exists entries err,
    decodeEntries _ DecodeAttributesAndChunks zero NewFullPath fullpath kvs acc
    = (acc ++ entries, err)
    /\ (length entries <= length kvs)%nat
    /\ Forall (fun e => exists key value,
                 (key, value) ∈ kvs
                 /\ DecodeAttributesAndChunks
                      (mkEntry _ (NewFullPath fullpath (string_of_bytes (drop md5.Size key)))
                               zero) value = (e, None)) entries.
Proof.
  revert acc. induction kvs as [|[key value] kvs IH]; intros acc.
  - exists [], None. cbn. rewrite app_nil_r. by repeat split.
  - cbn [decodeEntries].
    destruct (DecodeAttributesAndChunks _ value) as [e [decodeErr|]] eqn:Hdec.
    + exists [], (Some decodeErr). rewrite app_nil_r. repeat split; [cbn; lia | constructor].
    + destruct (IH (acc ++ [e])) as (entries & err & -> & Hlen & Hall).
      exists (e :: entries), err. rewrite <- app_assoc. split; [done|].
      split; [cbn; lia|]. constructor.
      * exists key, value. split; [left | done].
      * eapply Forall_impl; [exact Hall|]. intros e' (k & v & Hin & Hd).
        exists k, v. split; [by right | done].
Qed.

(** X11.  On an initialised store [ListDirectoryEntries] returns without a
    panic for every [int] [limit], and every entry it returns is the
    decoding of a value stored in the directory's shard under a key that
    starts with the directory's digest, is not below the start key, and
    whose file name is not empty and is not the start name unless
    [inclusive] is set.  For a [limit] above the least [int] it returns at
    most [limit] entries, so none when [limit] is not positive.  At the
    least [int] the decrement of the counter wraps around: on a shard of
    fewer than 2^63 pairs the whole directory from the start key is
    listed, up to the first value that does not decode. *)
Theorem ListDirectoryEntries_sound (store : LevelDB2Store) (fullpath startFileName : string)
    (inclusive : bool) (limit : Z) :
  0 < dbCount store ->
  length (dbs store) = Z.to_nat (dbCount store) ->
  - 2 ^ 63 <= limit < 2 ^ 63 ->
  let p := md5.Sum (bytes_of_string fullpath) in
  exists db entries err,
    shard store (Z.rem (lastByte fullpath) (dbCount store)) = Some db
    /\ ListDirectoryEntries _ DecodeAttributesAndChunks zero NewFullPath store fullpath
         startFileName inclusive limit = Returns (entries, err)
    /\ (- 2 ^ 63 < limit -> (length entries <= Z.to_nat limit)%nat)
    /\ (limit = - 2 ^ 63 -> Z.of_nat (size db) < 2 ^ 63 ->
        (entries, err)
        = decodeEntries _ DecodeAttributesAndChunks zero NewFullPath fullpath
            (List.filter (listable p startFileName inclusive)
               (leveldb.NewIterator db (p ++ bytes_of_string startFileName))) [])
    /\ Forall (fun e => exists key value,
                 db !! key = Some value
                 /\ p `prefix_of` key
                 /\ leveldb.bytes_leb (p ++ bytes_of_string startFileName) key = true
                 /\ let fileName := string_of_bytes (drop md5.Size key) in
                    fileName <> ""
                    /\ (fileName = startFileName -> inclusive = true)
                    /\ DecodeAttributesAndChunks
                         (mkEntry _ (NewFullPath fullpath fileName) zero) value
                       = (e, None)) entries.
Proof.
  intros Hn Hlen Hlimit p.
  destruct (ListDirectoryEntries_run_int store fullpath startFileName inclusive limit)
    as (db & n & Hdb & -> & Hpos & Hleast); [assumption..|]. fold p.
  set (listed := List.filter _ _).
  set (kvs := take n listed).
  destruct (decodeEntries_sound fullpath kvs []) as (entries & err & Hrun & Hle & Hall).
  cbn [app] in Hrun.
  exists db, entries, err. split; [assumption|]. split; [by rewrite Hrun|].
  split; [|split].
  - intros Hl. etrans; [exact Hle|]. unfold kvs. rewrite length_take, (Hpos Hl). lia.
  - intros Hl Hsize. rewrite <- Hrun. unfold kvs. rewrite take_ge; [reflexivity|].
    rewrite (Hleast Hl).
    assert (Hlisted : (length listed <= size db)%nat).
    { unfold listed, leveldb.NewIterator.
      etrans; [apply List.filter_length_le|]. etrans; [apply List.filter_length_le|].
      rewrite merge_sort_Permutation. by rewrite length_map_to_list. }
    lia.
  - eapply Forall_impl; [exact Hall|]. intros e (key & value & Hin & Hdec).
    exists key, value.
    apply elem_of_take in Hin as (i & Hin & _). apply list_elem_of_lookup_2 in Hin.
    apply list_elem_of_In, filter_In in Hin as [Hin Hl].
    destruct (NewIterator_spec db (p ++ bytes_of_string startFileName)) as [_ Hf].
    rewrite Forall_forall in Hf. apply list_elem_of_In in Hin.
    destruct (Hf _ Hin) as [Hge Hlook]. cbn [fst snd] in *.
    unfold listable in Hl. cbn [fst] in Hl.
    apply andb_prop in Hl as [Hl Hl3]. apply andb_prop in Hl as [Hl1 Hl2].
    apply bool_decide_eq_true in Hl1. apply negb_true_iff, bool_decide_eq_false in Hl2.
    apply negb_true_iff in Hl3.
    repeat split; try done.
    intros Heq. rewrite (bool_decide_eq_true_2 _ Heq) in Hl3.
    destruct inclusive; [done | discriminate].
Qed.

Lemma decodeEntries_all_decode (fullpath : string) (kvs : list (list Z * list Z))
    (acc : list (Entry Payload)) :
  Forall (fun kv => (DecodeAttributesAndChunks
            (mkEntry _ (NewFullPath fullpath (string_of_bytes (drop md5.Size kv.1))) zero)
            kv.2).2 = None) kvs ->
  decodeEntries _ DecodeAttributesAndChunks zero NewFullPath fullpath kvs acc
  = (acc ++ ((fun kv => (DecodeAttributesAndChunks
            (mkEntry _ (NewFullPath fullpath (string_of_bytes (drop md5.Size kv.1))) zero)
            kv.2).1) <$> kvs), None).
Proof.
  revert acc. induction kvs as [|[key value] kvs IH]; intros acc Hall.
  - cbn. by rewrite app_nil_r.
  - apply Forall_cons in Hall as [Hd Hall]. cbn [decodeEntries fmap list_fmap fst snd] in *.
    destruct (DecodeAttributesAndChunks _ value) as [e [decodeErr|]]; [done|].
    rewrite IH by done. cbn [fst]. by rewrite <- app_assoc.
Qed.

Lemma bytes_leb_app p x : leveldb.bytes_leb p (p ++ x) = true.
Proof. induction p as [|a p IH]; [done|]. cbn. by rewrite Z.ltb_irrefl. Qed.

(** X12.  Listing finds what the directory holds: when every value of the
    shard decodes and [limit] is at least the number of pairs in the shard,
    a listing from the beginning returns no error and contains, for every
    non-empty file name stored under the directory's digest, the decoding
    of its value; the entries come in the byte order of their keys. *)
Theorem ListDirectoryEntries_complete (store : LevelDB2Store) (fullpath : string)
    (inclusive : bool) (limit : Z) (db : gmap (list Z) (list Z)) :
  0 < dbCount store ->
  length (dbs store) = Z.to_nat (dbCount store) ->
  limit < 2 ^ 63 ->
  shard store (Z.rem (lastByte fullpath) (dbCount store)) = Some db ->
  Z.of_nat (size db) <= limit ->
  (forall key value e,
     db !! key = Some value -> (DecodeAttributesAndChunks e value).2 = None) ->
  let p := md5.Sum (bytes_of_string fullpath) in
  let decoded kv :=
    (DecodeAttributesAndChunks
       (mkEntry _ (NewFullPath fullpath (string_of_bytes (drop md5.Size kv.1))) zero)
       kv.2).1 in
  exists kvs,
    ListDirectoryEntries _ DecodeAttributesAndChunks zero NewFullPath store fullpath ""
      inclusive limit = Returns (decoded <$> kvs, None)
    /\ StronglySorted leveldb.key_le kvs
    /\ (forall fileName value,
          fileName <> "" ->
          db !! (p ++ bytes_of_string fileName) = Some value ->
          (p ++ bytes_of_string fileName, value) ∈ kvs).
Proof.
  intros Hn Hlen Hlimit Hdb Hsize Hdec p decoded.
  assert (Hl : - 2 ^ 63 < limit < 2 ^ 63) by lia.
  destruct (ListDirectoryEntries_run store fullpath "" inclusive limit)
    as (db' & Hdb' & ->); [done..|]. fold p.
  assert (db' = db) as -> by congruence.
  change (bytes_of_string "") with (@nil Z). rewrite app_nil_r.
  set (iter := leveldb.NewIterator db p).
  set (kvs := List.filter (listable p "" inclusive) iter).
  destruct (NewIterator_spec db p) as [Hsorted Hf]. fold iter in Hsorted, Hf.
  assert (Hiter : (length iter <= size db)%nat).
  { unfold iter, leveldb.NewIterator.
    etrans; [apply List.filter_length_le|].
    rewrite merge_sort_Permutation. by rewrite length_map_to_list. }
  assert (Hkvs : (length kvs <= length iter)%nat) by apply List.filter_length_le.
  rewrite take_ge by lia.
  exists kvs. split; [|split].
  - rewrite decodeEntries_all_decode; [done|].
    apply Forall_forall. intros [key value] Hin. cbn [fst snd].
    apply list_elem_of_In, filter_In in Hin as [Hin _]. apply list_elem_of_In in Hin.
    rewrite Forall_forall in Hf. destruct (Hf _ Hin) as [_ Hlook]. by eapply Hdec.
  - by apply StronglySorted_List_filter.
  - intros fileName value Hne Hlook.
    apply list_elem_of_In, filter_In. split.
    + unfold iter, leveldb.NewIterator. apply filter_In. split.
      * apply list_elem_of_In. rewrite merge_sort_Permutation.
        by apply elem_of_map_to_list.
      * apply bytes_leb_app.
    + unfold listable. cbn [fst].
      rewrite bool_decide_eq_true_2 by (by exists (bytes_of_string fileName)).
      rewrite drop_app_length' by (symmetry; apply md5_Sum_length).
      rewrite string_of_bytes_of_string.
      rewrite !bool_decide_eq_false_2 by done. done.
Qed.

End FilerListing.

(** ** The topology: collections as they come and go, and what a lookup returns *)
Section TopologyMore.

Import topology.

Lemma elem_of_Items {V} (m : gmap string V) (v : V) :
  v ∈ Items m <-> exists name, m !! name = Some v.
Proof.
  unfold Items. rewrite list_elem_of_fmap. split.
  - intros ([name v'] & -> & Hin). exists name. by apply elem_of_map_to_list.
  - intros [name Hname]. exists (name, v). split; [done|]. by apply elem_of_map_to_list.
Qed.

(** X13.  [UnRegisterVolumeLayout] removes the volume's collection from the
    collection map exactly when the layout for the volume's placement and
    TTL is empty after the volume is unregistered, whatever the collection's
    other layouts hold, and it leaves every other collection as it was. *)
Theorem UnRegisterVolumeLayout_removal_rule (t : Topology) (v : VolumeInfo)
    (dn : DataNodeRef) :
  let t' := UnRegisterVolumeLayout t v dn in
  let vl := VolumeLayout.UnRegisterVolume
              (GetVolumeLayout t (Collection_ v) (ReplicaPlacement v) (Ttl v)).2 v dn in
  (FindCollection t' (Collection_ v) = None <-> VolumeLayout.isEmpty vl = true)
  /\ (forall name, name <> Collection_ v -> FindCollection t' name = FindCollection t name)
  /\ ecShardMap t' = ecShardMap t.
Proof.
  cbn zeta. split; [symmetry; apply UnRegisterVolumeLayout_collection|].
  split; [intros; by apply UnRegisterVolumeLayout_other|].
  unfold UnRegisterVolumeLayout, GetVolumeLayout.
  destruct (Collection.GetOrCreateVolumeLayout _ _ _) as [c' vl0].
  unfold storeLayout. cbn [collectionMap withCollections]. rewrite lookup_insert_eq.
  by destruct (VolumeLayout.isEmpty _).
Qed.

(** X14.  [ListCollections] returns each name once; a name is listed
    exactly when it is the name of a collection in the collection map or,
    with [includeEcVolumes], the collection of an erasure-coded volume.
    [includeNormalVolumes] has no effect: the collections of the map are
    listed also when it is false. *)
Theorem ListCollections_names (t : Topology) (includeNormalVolumes includeEcVolumes : bool) :
  NoDup (ListCollections t includeNormalVolumes includeEcVolumes)
  /\ (forall name,
        name ∈ ListCollections t includeNormalVolumes includeEcVolumes <->
        (exists key c, collectionMap t !! key = Some c /\ Collection.Name c = name)
        \/ (includeEcVolumes = true
            /\ exists vid loc, ecShardMap t !! vid = Some loc /\ ecCollection loc = name))
  /\ ListCollections t includeNormalVolumes includeEcVolumes
     = ListCollections t (negb includeNormalVolumes) includeEcVolumes.
Proof.
  unfold ListCollections. split; [apply NoDup_elements|]. split; [|done].
  intros name. rewrite elem_of_elements, elem_of_union, !elem_of_list_to_set.
  rewrite list_elem_of_fmap. split.
  - intros [(c & -> & Hc)|Hec].
    + left. apply elem_of_Items in Hc as [key Hkey]. by exists key, c.
    + right. destruct includeEcVolumes; [|by apply elem_of_empty in Hec].
      split; [done|]. apply elem_of_list_to_set, list_elem_of_fmap in Hec as (loc & -> & Hloc).
      apply list_elem_of_fmap in Hloc as ([vid loc'] & -> & Hin).
      exists vid, loc'. split; [by apply elem_of_map_to_list | done].
  - intros [(key & c & Hkey & <-)|(-> & vid & loc & Hloc & <-)].
    + left. exists c. split; [done|]. apply elem_of_Items. by exists key.
    + right. apply elem_of_list_to_set, list_elem_of_fmap. exists loc. split; [done|].
      apply list_elem_of_fmap. exists (vid, loc). split; [done|].
      by apply elem_of_map_to_list.
Qed.

Lemma go_append_assoc {A} (s : option (list A)) (l1 l2 : list A) :
  go_append (go_append s l1) l2 = go_append s (l1 ++ l2).
Proof.
  destruct s as [s|], l1 as [|x l1]; cbn; try done.
  - by rewrite app_nil_r.
  - by rewrite <- app_assoc.
Qed.

Lemma flatten_shards_concat (locations : list (list DataNodeRef)) :
  flatten_shards locations = go_append None (concat locations).
Proof.
  unfold flatten_shards. generalize (@None (list DataNodeRef)).
  induction locations as [|l ls IH]; intros acc; cbn [fold_left concat].
  - destruct acc; cbn; [by rewrite app_nil_r | done].
  - by rewrite IH, go_append_assoc.
Qed.

(** X15.  [Lookup] does not invent locations.  A result that is not nil is
    either the replica list of a collection of the map (of the named one
    when a name is given), or the shard locations of the erasure-coded
    volume concatenated in shard order, and then it is not empty.  When no
    collection knows the volume, the result is nil if a name is given and
    that collection exists, and otherwise the concatenated shard locations
    (nil when the volume is not erasure-coded or no shard has a
    location). *)
Theorem Lookup_result (t : Topology) (collection : string) (vid : Z) :
  (forall dataNodes,
     Lookup t collection vid = Some dataNodes ->
     (exists name c, collectionMap t !! name = Some c
                     /\ (collection = "" \/ name = collection)
                     /\ Collection.Lookup c vid = Some dataNodes)
     \/ (exists locations, LookupEcShards t vid = Some locations
                           /\ dataNodes = concat (Locations locations)
                           /\ dataNodes <> []))
  /\ ((forall name c, collectionMap t !! name = Some c -> Collection.Lookup c vid = None) ->
      Lookup t collection vid
      = if bool_decide (collection <> "" /\ is_Some (FindCollection t collection))
        then None
        else match LookupEcShards t vid with
             | Some locations => go_append None (concat (Locations locations))
             | None => None
             end).
Proof.
  rewrite Lookup_cases. cbn zeta. split.
  - intros dataNodes.
    assert (Hec : match LookupEcShards t vid with
                  | Some locations => flatten_shards (Locations locations)
                  | None => None
                  end = Some dataNodes ->
                  exists locations, LookupEcShards t vid = Some locations
                    /\ dataNodes = concat (Locations locations) /\ dataNodes <> []).
    { destruct (LookupEcShards t vid) as [locations|]; [|done].
      rewrite flatten_shards_concat. intros H. exists locations. split; [done|].
      destruct (concat (Locations locations)); [done|]. by injection H as <-. }
    case_bool_decide as Hname.
    + destruct (lookup_each _ _) as [l|] eqn:Hl; [|by right; apply Hec].
      intros [= <-]. left. apply lookup_each_Some in Hl as (c & Hc & Hl).
      apply elem_of_Items in Hc as [name Hc]. exists name, c. auto.
    + unfold FindCollection. destruct (collectionMap t !! collection) as [c|] eqn:Hc;
        [|by right; apply Hec].
      intros Hl. left. exists collection, c. auto.
  - intros Hnone.
    assert (lookup_each (Items (collectionMap t)) vid = None) as ->.
    { apply lookup_each_None. intros c [name Hc]%elem_of_Items. by eapply Hnone. }
    unfold FindCollection. case_bool_decide as Hname.
    + rewrite bool_decide_eq_false_2 by (intros [? _]; done).
      destruct (LookupEcShards t vid); [apply flatten_shards_concat | done].
    + destruct (collectionMap t !! collection) as [c|] eqn:Hc.
      * rewrite bool_decide_eq_true_2 by (split; [done | by eexists]).
        by eapply Hnone.
      * rewrite bool_decide_eq_false_2 by (intros [_ [? ?]]; done).
        destruct (LookupEcShards t vid); [apply flatten_shards_concat | done].
Qed.


End TopologyMore.

(** ** Erasure-coded shard files: names and life cycle *)
Section ShardFiles.

Import erasure_coding.
Import Stdlib.Strings.Ascii.

Lemma occurs_app_r c s1 s2 : occurs c (s1 +:+ String c s2).
Proof.
  induction s1 as [|c' s1 IH]; [by left|].
  change (String c' s1 +:+ String c s2) with (String c' (s1 +:+ String c s2)).
  by right.
Qed.

Lemma string_of_uint_digits d :
  ~ occurs "_"%char (DecimalString.NilEmpty.string_of_uint d).
Proof. induction d; cbn; [tauto|intros [?|?]; done ..]. Qed.

Lemma Itoa_no_underscore i : ~ occurs "_"%char (Itoa i).
Proof.
  assert (Hu : forall d, ~ occurs "_"%char (DecimalString.NilZero.string_of_uint d)).
  { intros d. destruct d;
      [by intros [?|[]]
      |match goal with
       | |- ~ occurs _ (_ ?x) => exact (string_of_uint_digits x)
       end ..]. }
  unfold Itoa, DecimalString.NilZero.string_of_int.
  destruct (Z.to_int i) as [d|d]; [apply Hu|].
  intros [?|?]; [done|by eapply Hu].
Qed.

Lemma Itoa_inj i j : Itoa i = Itoa j -> i = j.
Proof.
  unfold Itoa. intros H. apply DecimalZ.to_int_inj.
  assert (Hnn : forall z, Z.to_int z <> Decimal.Pos Decimal.Nil
                          /\ Z.to_int z <> Decimal.Neg Decimal.Nil).
  { intros [|p|p]; cbn; split; try done; intros [= Hp];
      by apply DecimalPos.Unsigned.to_uint_nonnil in Hp. }
  destruct (Hnn i) as [Hi1 Hi2], (Hnn j) as [Hj1 Hj2].
  pose proof (DecimalString.NilZero.isi _ Hi1 Hi2) as Ei.
  pose proof (DecimalString.NilZero.isi _ Hj1 Hj2) as Ej.
  rewrite H in Ei. congruence.
Qed.

(** Two strings that end in an underscore and a run without underscores
    split in the same place. *)
Lemma split_at_last_underscore s1 s2 n1 n2 :
  ~ occurs "_"%char n1 -> ~ occurs "_"%char n2 ->
  s1 +:+ String "_"%char n1 = s2 +:+ String "_"%char n2 ->
  s1 = s2 /\ n1 = n2.
Proof.
  intros H1 H2. revert s2. induction s1 as [|c s1 IH]; intros [|c' s2]; cbn.
  - by intros [= ->].
  - intros [= <- ->]. destruct H1. apply occurs_app_r.
  - intros [= -> <-]. destruct H2. apply occurs_app_r.
  - intros [= -> Heq]. destruct (IH _ Heq) as [-> ->]. done.
Qed.

Variable Join : string -> string -> string.
Variable ToExt : Z -> string.

(** X17.  A shard's base file name tells the collection and the volume id:
    [EcShardBaseFileName] gives two (collection, id) pairs the same name
    only when they are the same pair.  [EcShardFileName] is the directory
    joined with that base name. *)
Theorem EcShardBaseFileName_inj (collection collection' dir : string) (id id' : Z) :
  (EcShardBaseFileName collection id = EcShardBaseFileName collection' id' ->
   collection = collection' /\ id = id')
  /\ EcShardFileName Join collection dir id = Join dir (EcShardBaseFileName collection id).
Proof.
  unfold EcShardBaseFileName, EcShardFileName. split.
  - destruct (decide (collection = "")) as [->|Hc], (decide (collection' = "")) as [->|Hc'].
    + rewrite !bool_decide_eq_false_2 by (intros H; by apply H).
      intros ?%Itoa_inj. done.
    + rewrite bool_decide_eq_false_2 by (intros H; by apply H).
      rewrite bool_decide_eq_true_2 by done.
      intros Heq. destruct (Itoa_no_underscore id). rewrite Heq. apply occurs_app_r.
    + rewrite bool_decide_eq_true_2 by done.
      rewrite (bool_decide_eq_false_2 ("" <> "")) by (intros H; by apply H).
      intros Heq. destruct (Itoa_no_underscore id'). rewrite <- Heq. apply occurs_app_r.
    + rewrite !bool_decide_eq_true_2 by done.
      intros [-> ?%Itoa_inj]%split_at_last_underscore; auto using Itoa_no_underscore.
  - case_bool_decide as Hc.
    + subst. by rewrite bool_decide_eq_false_2 by (intros H; by apply H).
    + by rewrite bool_decide_eq_true_2.
Qed.

(** X18.  The life cycle of a shard.  [NewEcVolumeShard] returns a shard
    exactly when its file opens and can be stat-ed; the shard then has the
    file's size and the gauge of its collection was incremented once, and
    otherwise the host is untouched.  [Destroy] removes that very file, so a
    second [NewEcVolumeShard] for the same shard fails, and it increments
    the gauge once more: after creation and destruction the gauge reads two
    higher than before, not the same. *)
Theorem shard_life_cycle (h : Host) (dirname collection : string) (id shardId : Z) :
  let name := EcShardFileName Join collection dirname id +:+ ToExt shardId in
  let usable :=
    match files h !! name with
    | Some node => bool_decide (openError node = None /\ statError node = None)
    | None => false
    end in
  let '(h1, (made, err)) := NewEcVolumeShard Join ToExt h dirname collection id shardId in
  match made with
  | None => usable = false /\ err <> None /\ h1 = h
  | Some shard =>
      usable = true /\ err = None
      /\ files h1 = files h
      /\ (exists node, files h !! name = Some node /\ Size shard = fileSize node)
      /\ gaugeValue (gaugeCalls h1) collection "ec_shards"
         = gaugeValue (gaugeCalls h) collection "ec_shards" + 1
      /\ let h2 := Destroy Join ToExt h1 shard in
         files h2 = delete name (files h)
         /\ gaugeValue (gaugeCalls h2) collection "ec_shards"
            = gaugeValue (gaugeCalls h) collection "ec_shards" + 2
         /\ (NewEcVolumeShard Join ToExt h2 dirname collection id shardId).2.1 = None
  end.
Proof.
  cbn zeta. unfold NewEcVolumeShard, FileName. cbn [Collection dir VolumeId].
  set (name := EcShardFileName Join collection dirname id +:+ ToExt shardId).
  assert (Hg : forall calls, gaugeValue (calls ++ [(collection, "ec_shards", Inc)])
                 collection "ec_shards" = gaugeValue calls collection "ec_shards" + 1).
  { intros calls. unfold gaugeValue. rewrite foldl_snoc.
    by rewrite bool_decide_eq_true_2. }
  destruct (files h !! name) as [node|] eqn:Hnode.
  - destruct (openError node) as [e|] eqn:Ho.
    { split; [|done]. apply bool_decide_eq_false_2. by intros [? _]. }
    destruct (statError node) as [e|] eqn:Hs.
    { split; [|done]. apply bool_decide_eq_false_2. by intros [_ ?]. }
    split; [by apply bool_decide_eq_true_2|]. split; [done|]. split; [done|].
    split; [by exists node|]. cbn [gaugeCalls files]. split; [apply Hg|].
    unfold Destroy, FileName. cbn [Collection dir VolumeId ShardId files gaugeCalls].
    fold name. split; [done|]. split; [rewrite !Hg; lia|].
    by rewrite lookup_delete_eq.
  - by repeat split.
Qed.

End ShardFiles.

(** ** The further properties at concrete inputs *)
Section MoreWitnesses.

Import types storage fixtures.

(** 80 bytes written over 50 under key 42. *)
Lemma Put_then_Get_witness :
  Get (Put 42 300 80 (Put 42 100 50 m0).1.2).1.2 42 = Some (mkNeedleValue 42 300 80).
Proof.
  pose proof (proj1 (Put_then_Get (Put 42 100 50 m0).1.2 42 300 80
                       (Put 42 300 80 (Put 42 100 50 m0).1.2).1.1
                       (Put 42 300 80 (Put 42 100 50 m0).1.2).1.2
                       eq_refl ltac:(by vm_compute))) as H.
  vm_compute in H. vm_compute. exact H.
Defined.

(** A [Delete] of key 7 on the empty index. *)
Lemma Delete_appends_tombstone_and_keeps_others_witness :
  entries (indexFile (Delete 7 0 m0).1.2) = [mkIdxEntry 7 0 TombstoneFileSize]
  /\ Get (Delete 7 0 m0).1.2 7 = None.
Proof.
  pose proof (Delete_appends_tombstone_and_keeps_others m0 7 0
                (Delete 7 0 m0).1.1 (Delete 7 0 m0).1.2
                eq_refl ltac:(by vm_compute)) as (H1 & H2 & _).
  split; [exact H1 | exact H2].
Defined.

(** The three operations of §8 on the empty index. *)
Lemma rebuild_reproduces_live_store_witness :
  let ops := [OpPut 42 100 50; OpPut 43 200 30; OpDelete 42 100] in
  let '(m', errs) := runOps ops m0 in
  Forall (eq None) errs
  /\ generateLevelDbFile (leveldb.Present ∅) (indexFile m')
     = (leveldb.Present (db m'), None).
Proof.
  exact (rebuild_reproduces_live_store
           [OpPut 42 100 50; OpPut 43 200 30; OpDelete 42 100] m0 ∅ eq_refl
           ltac:(repeat constructor; by vm_compute) eq_refl).
Defined.

(** A [Put] with offset zero. *)
Lemma Put_unreplayable_entry_is_lost_on_rebuild_witness :
  Get (Put 42 0 50 m0).1.2 42 = Some (mkNeedleValue 42 0 50)
  /\ Get (withDb (Put 42 0 50 m0).1.2
            (replaySpec (entries (indexFile (Put 42 0 50 m0).1.2)) ∅)) 42 = None.
Proof.
  pose proof (proj1 (Put_unreplayable_entry_is_lost_on_rebuild m0 42 0 50
                       (Put 42 0 50 m0).1.1 (Put 42 0 50 m0).1.2 leveldb.Missing ∅
                       eq_refl (or_introl eq_refl) eq_refl)) as H.
  split; [vm_compute in H; vm_compute; exact H | by vm_compute].
Defined.

(** The scenario log replayed twice into a missing directory. *)
Lemma generateLevelDbFile_twice_witness :
  let f := mkIndexFile "1.idx" scenarioLog None in
  let '(dir1, err1) := generateLevelDbFile leveldb.Missing f in
  err1 = None /\ generateLevelDbFile dir1 f = (dir1, None).
Proof.
  exact (generateLevelDbFile_twice leveldb.Missing
           (mkIndexFile "1.idx" scenarioLog None) ∅ eq_refl).
Defined.

(** A damaged store directory. *)
Lemma NewLevelDbNeedleMap_store_does_not_open_witness :
  NewLevelDbNeedleMap noMetric (mkDisk (leveldb.Corrupt "manifest corrupted") None (Some 10))
    "1.ldb" (mkIndexFile "1.idx" scenarioLog None)
  = (leveldb.Corrupt "manifest corrupted", inr "manifest corrupted").
Proof.
  exact (proj2 (NewLevelDbNeedleMap_store_does_not_open noMetric
                  (mkDisk (leveldb.Corrupt "manifest corrupted") None (Some 10))
                  "1.ldb" (mkIndexFile "1.idx" scenarioLog None)
                  "manifest corrupted" eq_refl)).
Defined.

(** The key of "/home/photos/a.jpg" among eight shards. *)
Lemma getNameFromKey_of_genKey_witness :
  exists key partitionId,
    leveldb2.genKey "/home/photos" "a.jpg" 8 = Returns (key, partitionId)
    /\ leveldb2.getNameFromKey key = Returns (bytes_of_string "a.jpg").
Proof.
  destruct (getNameFromKey_of_genKey "/home/photos" "a.jpg" 8 ltac:(done))
    as (key & partitionId & H1 & H2 & _).
  exists key, partitionId. split; [exact H1 | exact H2].
Defined.

(** Deleting the photo from the store that holds it. *)
Lemma DeleteEntry_then_FindEntry_witness :
  exists store',
    leveldb2.DeleteEntry DirAndName storePhoto "/home/photos/a.jpg" = Returns (store', None)
    /\ leveldb2.FindEntry _ DirAndName decode [] store' "/home/photos/a.jpg"
       = Returns (None, Some leveldb2.ErrNotFound).
Proof.
  destruct (DeleteEntry_then_FindEntry (list Z) DirAndName decode [] storePhoto
              "/home/photos/a.jpg" ltac:(by vm_compute) ltac:(by vm_compute))
    as (store' & H1 & _ & _ & H2).
  exists store'. split; [exact H1 | exact H2].
Defined.

(** Inserting "/home/photos/a.jpg" does not change what is found at
    "/home/photos/b.jpg". *)
Lemma FindEntry_unaffected_by_other_paths_witness :
  leveldb2.FindEntry _ DirAndName decode [] storePhoto "/home/photos/b.jpg"
  = leveldb2.FindEntry _ DirAndName decode [] store8 "/home/photos/b.jpg".
Proof.
  exact (proj1 (FindEntry_unaffected_by_other_paths (list Z) DirAndName encode decode []
                  store8 photo "/home/photos/b.jpg" ltac:(by vm_compute)
                  ltac:(vm_compute; right; discriminate))
           storePhoto None ltac:(by vm_compute)).
Defined.

(** Eight shard folders of which the fourth does not open. *)
Lemma initialize_swallows_open_error_witness :
  let '(store, err) :=
    leveldb2.initialize (leveldb2.mkStore [] 0) "/data/filer" None damagedFolders 8 in
  err = None /\ leveldb2.dbCount store = 0.
Proof.
  pose proof (initialize_swallows_open_error (list Z) DirAndName encode decode []
                "/data/filer" damagedFolders 8 3 "manifest corrupted"
                ltac:(vm_compute; lia) eq_refl) as H.
  destruct (leveldb2.initialize _ _ _ _ _) as [store err].
  destruct H as (H1 & H2 & _). split; [exact H1 | exact H2].
Defined.

(** Listing "/home/photos" on the store that holds the photo, with the
    least [int] as limit: the photo is listed. *)
Lemma ListDirectoryEntries_sound_witness :
  leveldb2.ListDirectoryEntries _ decode [] joinPath storePhoto "/home/photos" "" false
    (- 2 ^ 63)
  = Returns ([leveldb2.mkEntry _ "/home/photos/a.jpg" [1; 2; 3]], None).
Proof.
  destruct (ListDirectoryEntries_sound (list Z) decode [] joinPath storePhoto
              "/home/photos" "" false (- 2 ^ 63)
              ltac:(by vm_compute) ltac:(by vm_compute) ltac:(by vm_compute))
    as (db & entries & err & _ & H & _).
  rewrite H. vm_compute in H. exact (eq_sym H).
Defined.

(** The photo is in the listing of its directory. *)
Lemma ListDirectoryEntries_complete_witness :
  exists kvs,
    leveldb2.ListDirectoryEntries _ decode [] joinPath storePhoto "/home/photos" "" false 10
    = Returns ((fun kv => (decode (leveldb2.mkEntry _
                                     (joinPath "/home/photos"
                                        (string_of_bytes (drop md5.Size kv.1))) [])
                             kv.2).1) <$> kvs, None)
    /\ (md5.Sum (bytes_of_string "/home/photos") ++ bytes_of_string "a.jpg", [1; 2; 3]) ∈ kvs.
Proof.
  destruct (ListDirectoryEntries_complete (list Z) decode [] joinPath storePhoto
              "/home/photos" false 10
              (default ∅ (leveldb2.shard storePhoto 7))
              ltac:(by vm_compute) ltac:(by vm_compute) ltac:(by vm_compute)
              ltac:(by vm_compute) ltac:(by vm_compute)
              (fun _ _ _ _ => eq_refl))
    as (kvs & H1 & _ & H2).
  exists kvs. split; [exact H1|].
  apply H2; [done | by vm_compute].
Defined.

End MoreWitnesses.
